(** * straw: a terminal cell grid with redraw and incremental flush

    A shallow embedding of [straw.hpp] (namespace [straw]) and the
    properties of its screen buffer.

    Conventions of the embedding.
    - [unsigned] and [std::uint8_t] values are numbers in [N]; every
      arithmetic operation the source performs on [unsigned] is followed
      by its wrap-around [wrap32], and [std::size_t] arithmetic by
      [wrap64].
    - [chartype] is instantiated at [char]: a glyph is an [ascii], the
      text written to [std::cout] is a [string].
    - [std::vector<cell>] is a [list cell]; a [std::span] is an offset and
      a length into the vector it views.
    - A member function is a computation in the monad [M]: it receives the
      object, and either returns a value, the updated object and the text
      it wrote to [std::cout], or stops with a failed [assert], or leaves
      the defined behaviour of the language (an iterator or an element
      access outside its range). *)

From Stdlib Require Import PeanoNat NArith List String Ascii Bool Lia DecimalString.
Import ListNotations.

Local Open Scope N_scope.

(* ------------------------------------------------------------------ *)
(** ** Machine integers *)

Definition wrap32 (n : N) : N := n mod 2 ^ 32.
Definition wrap64 (n : N) : N := n mod 2 ^ 64.

(** [a - b] on [unsigned]. *)
Definition sub32 (a b : N) : N := wrap32 (a + 2 ^ 32 - wrap32 b).

(* ------------------------------------------------------------------ *)
(** ** Colours, attributes, cells *)

Record color : Type := mkcolor { r : N; g : N; b : N }.

(** [color(std::uint8_t A)]: a grey. *)
Definition gray (a : N) : color := mkcolor a a a.

Definition single (c : color) : N :=
  N.lor (N.lor (N.shiftl (r c) 16) (N.shiftl (g c) 8)) (b c).

Definition color_eqb (c1 c2 : color) : bool :=
  (r c1 =? r c2) && (g c1 =? g c2) && (b c1 =? b c2).

Record attribs : Type := mkattribs {
  bg : color;
  fg : color;
  bold : bool;
  underline : bool
}.

Definition black : color := mkcolor 0 0 0.
Definition white : color := mkcolor 255 255 255.

(** What an uninitialised pair of [bold] and [underline] holds.  The
    constructors of [attribs] that take colours only give the two flags no
    initialiser, so the program does not determine their values: every
    such construction takes the values it finds as a parameter. *)
Record junk : Type := mkjunk { j_bold : bool; j_underline : bool }.

(** The uninitialised flags of a run in which both happen to read as
    unset. *)
Definition unset : junk := mkjunk false false.

(** [attribs{}], as in the default member initialiser of [cell]: the
    object is zeroed before the colours get their defaults. *)
Definition attribs_default : attribs := mkattribs black white false false.

(** [attribs(color Fg)] and [attribs(color Bg, color Fg)]. *)
Definition attribs_fg (j : junk) (Fg : color) : attribs :=
  mkattribs black Fg (j_bold j) (j_underline j).
Definition attribs_bg_fg (j : junk) (Bg Fg : color) : attribs :=
  mkattribs Bg Fg (j_bold j) (j_underline j).

Definition attribs_eqb (a1 a2 : attribs) : bool :=
  color_eqb (bg a1) (bg a2) && color_eqb (fg a1) (fg a2)
  && Bool.eqb (bold a1) (bold a2) && Bool.eqb (underline a1) (underline a2).

Record cell : Type := mkcell { chr : ascii; attr : attribs }.

Definition cell_eqb (c1 c2 : cell) : bool :=
  Ascii.eqb (chr c1) (chr c2) && attribs_eqb (attr c1) (attr c2).

(** [std::equal(first1, last1, first2, last2)] on two ranges of cells. *)
Fixpoint cells_equal (l1 l2 : list cell) : bool :=
  match l1, l2 with
  | [], [] => true
  | c1 :: t1, c2 :: t2 => cell_eqb c1 c2 && cells_equal t1 t2
  | _, _ => false
  end.

(* ------------------------------------------------------------------ *)
(** ** Text written to the terminal *)

Local Open Scope string_scope.

(** [operator<<] on an [unsigned]: its decimal numeral. *)
Definition dec (n : N) : string := NilZero.string_of_uint (N.to_uint n).

(** [operator<<] on a [std::uint8_t], which is a character type: the one
    character whose code is the value. *)
Definition put_uint8 (n : N) : string := String (ascii_of_N n) "".

Definition put_char (c : ascii) : string := String c "".

(** The content of the [std::stringstream] that each of the three
    [ANSI_] functions builds and then writes to [std::cout]. *)
Definition ESC : ascii := ascii_of_N 27.
Definition ANSI_ESCAPE : string := String ESC "[".

Definition ANSI_MOVE_ss (x y : N) : string :=
  ANSI_ESCAPE ++ dec (wrap32 (y + 1)) ++ ";" ++ dec (wrap32 (x + 1)) ++ "H".

Definition ANSI_COLOR_FG_ss (c : color) : string :=
  ANSI_ESCAPE ++ "38;2;" ++ put_uint8 (r c) ++ ";" ++ put_uint8 (g c) ++ ";"
              ++ put_uint8 (b c) ++ "m".

Definition ANSI_COLOR_BG_ss (c : color) : string :=
  ANSI_ESCAPE ++ "38;2;" ++ put_uint8 (r c) ++ ";" ++ put_uint8 (g c) ++ ";"
              ++ put_uint8 (b c) ++ "m".

(** The escape sequence of section 6 of the specification for a 24-bit
    colour: [ESC[<sel>;2;<r>;<g>;<b>m], every channel as a decimal
    numeral.  It is what the emissions above are compared with. *)
Definition sgr_colour_spec (sel : string) (c : color) : string :=
  ANSI_ESCAPE ++ sel ++ ";2;" ++ dec (r c) ++ ";" ++ dec (g c) ++ ";"
              ++ dec (b c) ++ "m".

(** The first two characters of a text, and the test that the numeral of
    [n] followed by [;] starts with the character of code [n] and [;]. *)
Definition first_two (t : string) : option (ascii * ascii) :=
  match t with
  | String a (String c _) => Some (a, c)
  | _ => None
  end.

Definition numeral_is_byte (n : N) : bool :=
  match first_two (dec n ++ ";") with
  | Some (a, c) => Ascii.eqb a (ascii_of_N n) && Ascii.eqb c ";"
  | None => true
  end.

(** What [flush] writes for the one cell at column [x] of row [y] whose
    content [new] differs from the content [old] the back grid has. *)
Definition cell_update_text (x y : N) (new old : cell) : string :=
  ANSI_MOVE_ss x y
  ++ ((if negb (attribs_eqb (attr new) (attr old))
       then ANSI_COLOR_FG_ss (fg (attr new)) ++ ANSI_COLOR_BG_ss (bg (attr new))
       else "")
      ++ put_char (chr new)).

Local Close Scope string_scope.

(* ------------------------------------------------------------------ *)
(** ** The screen object and the monad of its member functions *)

Record screen : Type := mkscreen {
  m_x : N;
  m_y : N;
  m_width : N;
  m_height : N;
  m_front : list cell;
  m_back : list cell;
  m_cursorX : N;
  m_cursorY : N;
  m_cursorAttribs : attribs;
  m_fillChar : ascii
}.

Definition with_front (v : list cell) (s : screen) : screen :=
  mkscreen (m_x s) (m_y s) (m_width s) (m_height s) v (m_back s)
           (m_cursorX s) (m_cursorY s) (m_cursorAttribs s) (m_fillChar s).

Definition with_back (v : list cell) (s : screen) : screen :=
  mkscreen (m_x s) (m_y s) (m_width s) (m_height s) (m_front s) v
           (m_cursorX s) (m_cursorY s) (m_cursorAttribs s) (m_fillChar s).

Definition with_cursorX (x : N) (s : screen) : screen :=
  mkscreen (m_x s) (m_y s) (m_width s) (m_height s) (m_front s) (m_back s)
           x (m_cursorY s) (m_cursorAttribs s) (m_fillChar s).

Definition with_cursorY (y : N) (s : screen) : screen :=
  mkscreen (m_x s) (m_y s) (m_width s) (m_height s) (m_front s) (m_back s)
           (m_cursorX s) y (m_cursorAttribs s) (m_fillChar s).

Definition with_cursorAttribs (a : attribs) (s : screen) : screen :=
  mkscreen (m_x s) (m_y s) (m_width s) (m_height s) (m_front s) (m_back s)
           (m_cursorX s) (m_cursorY s) a (m_fillChar s).

(** How a call ends. *)
Inductive result (A : Type) : Type :=
| Ok (a : A)      (* it returns *)
| AssertFail      (* an [assert] fails and the program aborts *)
| Undefined.      (* an iterator or an index leaves its range *)

Arguments Ok {A} a.
Arguments AssertFail {A}.
Arguments Undefined {A}.

(** A computation on a screen: the value, the object afterwards and the
    text written to [std::cout] meanwhile. *)
Definition M (A : Type) : Type := screen -> result (A * screen * string).

Definition ret {A : Type} (a : A) : M A := fun s => Ok (a, s, EmptyString).

Definition bind {A B : Type} (m : M A) (f : A -> M B) : M B :=
  fun s =>
    match m s with
    | Ok (a, s1, o1) =>
        match f a s1 with
        | Ok (b, s2, o2) => Ok (b, s2, (o1 ++ o2)%string)
        | AssertFail => AssertFail
        | Undefined => Undefined
        end
    | AssertFail => AssertFail
    | Undefined => Undefined
    end.

Declare Scope straw_scope.
Delimit Scope straw_scope with straw.
Notation "x <- m ;; k" := (bind m (fun x => k))
  (at level 61, m at next level, right associativity) : straw_scope.
Notation "m ;; k" := (bind m (fun _ => k))
  (at level 61, right associativity) : straw_scope.
Local Open Scope straw_scope.

Definition get : M screen := fun s => Ok (s, s, EmptyString).
Definition modify (f : screen -> screen) : M unit := fun s => Ok (tt, f s, EmptyString).
Definition cout (t : string) : M unit := fun s => Ok (tt, s, t).
Definition assert (c : bool) : M unit :=
  fun s => if c then Ok (tt, s, EmptyString) else AssertFail.
Definition undefined {A : Type} : M A := fun _ => Undefined.

(** A loop over [xs] whose body updates the local variable [a]. *)
Fixpoint foreach {X A : Type} (xs : list X) (body : X -> A -> M A) (a : A) : M A :=
  match xs with
  | [] => ret a
  | x :: t => a' <- body x a ;; foreach t body a'
  end.

(** The values of [i] in [for (unsigned i = 0; i < n; i++)]. *)
Definition upto (n : N) : list N := map N.of_nat (seq 0 (N.to_nat n)).

Definition ANSI_MOVE (x y : N) : M unit := cout (ANSI_MOVE_ss x y).
Definition ANSI_COLOR_FG (c : color) : M unit := cout (ANSI_COLOR_FG_ss c).
Definition ANSI_COLOR_BG (c : color) : M unit := cout (ANSI_COLOR_BG_ss c).

(* ------------------------------------------------------------------ *)
(** ** Vectors and spans *)

Definition size (v : list cell) : N := N.of_nat (List.length v).

Fixpoint list_set (v : list cell) (i : nat) (c : cell) : list cell :=
  match v, i with
  | [], _ => []
  | _ :: t, O => c :: t
  | h :: t, S j => h :: list_set t j c
  end.

(** A [std::span<cell>]: [sp_len] cells from position [sp_off] of the
    vector it was taken from. *)
Record span : Type := mkspan { sp_off : N; sp_len : N }.

(** [std::span(v.begin() + off, v.begin() + off + len)]: both iterators
    have to stay within [v.begin()] and [v.end()]. *)
Definition span_of (v : list cell) (off len : N) : M span :=
  if off + len <=? size v then ret (mkspan off len) else undefined.

Definition slice (v : list cell) (sp : span) : list cell :=
  firstn (N.to_nat (sp_len sp)) (skipn (N.to_nat (sp_off sp)) v).

(** [sp[x]] read in [v]. *)
Definition span_at (v : list cell) (sp : span) (x : N) : M cell :=
  if x <? sp_len sp then
    match nth_error v (N.to_nat (sp_off sp + x)) with
    | Some c => ret c
    | None => undefined
    end
  else undefined.

(* ------------------------------------------------------------------ *)
(** ** Member functions of [screen] *)

Definition newline : ascii := ascii_of_N 10.

Definition setcursorxy (x y : N) : M unit :=
  modify (with_cursorX x) ;; modify (with_cursorY y).

Definition setcursorfg (r g b : N) : M unit :=
  s <- get ;;
  modify (with_cursorAttribs
            (mkattribs (bg (m_cursorAttribs s)) (mkcolor r g b)
                       (bold (m_cursorAttribs s)) (underline (m_cursorAttribs s)))).

Definition setcursorbg (r g b : N) : M unit :=
  s <- get ;;
  modify (with_cursorAttribs
            (mkattribs (mkcolor r g b) (fg (m_cursorAttribs s))
                       (bold (m_cursorAttribs s)) (underline (m_cursorAttribs s)))).

Definition setcursorbold (v : bool) : M unit :=
  s <- get ;;
  modify (with_cursorAttribs
            (mkattribs (bg (m_cursorAttribs s)) (fg (m_cursorAttribs s))
                       v (underline (m_cursorAttribs s)))).

Definition setcursorunderline (v : bool) : M unit :=
  s <- get ;;
  modify (with_cursorAttribs
            (mkattribs (bg (m_cursorAttribs s)) (fg (m_cursorAttribs s))
                       (bold (m_cursorAttribs s)) v)).

Definition getcursorx : M N := s <- get ;; ret (m_cursorY s).
Definition getcursory : M N := s <- get ;; ret (m_cursorY s).
Definition getx : M N := s <- get ;; ret (m_x s).
Definition gety : M N := s <- get ;; ret (m_y s).
Definition getwidth : M N := s <- get ;; ret (m_width s).
Definition getheight : M N := s <- get ;; ret (m_height s).

(** [std::fill] over the whole front vector. *)
Definition clear (c : ascii) : M unit :=
  s <- get ;;
  modify (with_front
            (repeat (mkcell c (m_cursorAttribs s)) (List.length (m_front s)))).

Definition scroll : M unit :=
  s <- get ;;
  modify (with_cursorY (sub32 (m_height s) 1)) ;;
  (* m_front = vector(m_front.begin() + m_width, m_front.end()) *)
  (if m_width s <=? size (m_front s)
   then modify (with_front (skipn (N.to_nat (m_width s)) (m_front s)))
   else undefined) ;;
  (* fill(m_front.end() - m_width, m_front.end(), cell{...}) *)
  s1 <- get ;;
  if m_width s1 <=? size (m_front s1)
  then modify (with_front
                 (firstn (N.to_nat (size (m_front s1) - m_width s1)) (m_front s1)
                  ++ repeat (mkcell (m_fillChar s1) (m_cursorAttribs s1))
                            (N.to_nat (m_width s1))))
  else undefined.

(** [m_front[i] = c] on the vector. *)
Definition front_assign (i : N) (c : cell) : M unit :=
  s <- get ;;
  if i <? size (m_front s)
  then modify (with_front (list_set (m_front s) (N.to_nat i) c))
  else undefined.

Definition setc (x y : N) (c : ascii) : M unit :=
  s <- get ;;
  assert (x <? m_width s) ;;
  assert (y <? m_height s) ;;
  front_assign (wrap32 (x + wrap32 (y * m_width s))) (mkcell c (m_cursorAttribs s)).

(** [operator[]]: the row [i] as a span of the front vector.  [i] is a
    [std::size_t], so [i * m_width] is computed on 64 bits, while
    [m_width * m_height] is an [unsigned] product. *)
Definition row (i : N) : M span :=
  s <- get ;;
  assert (i <? wrap32 (m_width s * m_height s)) ;;
  span_of (m_front s) (wrap64 (i * m_width s)) (m_width s).

(** [sp[x]] for a span of the front vector, read. *)
Definition front_at (sp : span) (x : N) : M cell :=
  s <- get ;; span_at (m_front s) sp x.

(** [sp[x]] for a span of the back vector, read. *)
Definition back_at (sp : span) (x : N) : M cell :=
  s <- get ;; span_at (m_back s) sp x.

(** [sp[x] = c] for a span of the front vector. *)
Definition front_span_assign (sp : span) (x : N) (c : cell) : M unit :=
  if x <? sp_len sp then front_assign (sp_off sp + x) c else undefined.

Definition putc (c : ascii) : M unit :=
  s <- get ;;
  (if m_cursorY s =? m_height s then scroll else ret tt) ;;
  (if Ascii.eqb c newline
   then
     modify (with_cursorX 0) ;;
     s1 <- get ;; modify (with_cursorY (wrap32 (m_cursorY s1 + 1)))
   else
     s1 <- get ;;
     sp <- row (m_cursorY s1) ;;
     modify (with_cursorX (wrap32 (m_cursorX s1 + 1))) ;;
     front_span_assign sp (m_cursorX s1) (mkcell c (m_cursorAttribs s1))) ;;
  s2 <- get ;;
  if m_cursorX s2 =? m_width s2
  then
    modify (with_cursorY (wrap32 (m_cursorY s2 + 1))) ;;
    modify (with_cursorX 0)
  else ret tt.

Definition puts (str : string) : M unit :=
  foreach (list_ascii_of_string str) (fun c _ => putc c) tt.

(** [std::flush] at the end of a row writes no character and is left
    out, here and in [flush]. *)
Definition redraw : M unit :=
  sp0 <- row 0 ;;
  c0 <- front_at sp0 0 ;;
  s <- get ;;
  foreach (upto (m_height s))
    (fun y cattr =>
       ANSI_MOVE 0 y ;;
       sp <- row y ;;
       foreach (upto (sp_len sp))
         (fun x cattr =>
            c <- front_at sp x ;;
            cattr' <- (if negb (attribs_eqb (attr c) cattr)
                       then
                         ANSI_COLOR_FG (fg (attr c)) ;;
                         ANSI_COLOR_BG (bg (attr c)) ;;
                         ret (attr c)
                       else ret cattr) ;;
            cout (put_char (chr c)) ;;
            ret cattr')
         cattr)
    (attr c0) ;;
  s1 <- get ;;
  modify (with_back (m_front s1)).

(** [continue] is the branch that returns at once. *)
Definition flush : M unit :=
  s <- get ;;
  foreach (upto (m_height s))
    (fun y _ =>
       s1 <- get ;;
       backspan <- span_of (m_back s1) (wrap32 (y * m_width s1)) (m_width s1) ;;
       frontspan <- row y ;;
       if cells_equal (slice (m_back s1) backspan) (slice (m_front s1) frontspan)
       then ret tt
       else
         foreach (upto (m_width s1))
           (fun x _ =>
              f <- front_at frontspan x ;;
              k <- back_at backspan x ;;
              if cell_eqb f k then ret tt
              else
                ANSI_MOVE x y ;;
                (if negb (attribs_eqb (attr f) (attr k))
                 then
                   ANSI_COLOR_FG (fg (attr f)) ;;
                   ANSI_COLOR_BG (bg (attr f))
                 else ret tt) ;;
                cout (put_char (chr f)))
           tt)
    tt.

(** The constructor: the members in their declaration order, then the
    first [redraw].  The cell the grids are filled with and
    [m_cursorAttribs] are two constructions of [attribs] from the two
    colours, each with uninitialised flags of its own: [jc] for the cell,
    [ja] for the cursor attributes. *)
Definition screen_init (jc ja : junk) (X Y W H : N) (C : ascii) (B F : color)
  : screen :=
  let v := repeat (mkcell C (attribs_bg_fg jc B F)) (N.to_nat (wrap32 (W * H))) in
  mkscreen X Y W H v v 0 0 (attribs_bg_fg ja B F) C.

Definition screen_new (jc ja : junk) (X Y W H : N) (C : ascii) (B F : color)
  : result (unit * screen * string) :=
  redraw (screen_init jc ja X Y W H C B F).

Definition screen_new_fill (jc ja : junk) (X Y W H : N) (C : ascii) :=
  screen_new jc ja X Y W H C (mkcolor 0 0 0) (mkcolor 255 255 255).

Definition screen_new_plain (jc ja : junk) (X Y W H : N) :=
  screen_new_fill jc ja X Y W H (ascii_of_N 32).

(** Running a member function on the object a constructor returned. *)
Definition on_new {A : Type} (c : result (unit * screen * string)) (m : M A)
  : result (A * screen * string) :=
  match c with
  | Ok (_, s, _) => m s
  | AssertFail => AssertFail
  | Undefined => Undefined
  end.

Definition chars (s : screen) : list ascii := map chr (m_front s).

(** The cells of a run of glyphs written with the attributes [a]. *)
Definition glyph_cells (a : attribs) (cs : list ascii) : list cell :=
  map (fun c => mkcell c a) cs.

(* ------------------------------------------------------------------ *)
(** ** Invariants of the data model *)

(** Both dimensions are positive and their product is an [unsigned]. *)
Definition dims_ok (s : screen) : Prop :=
  0 < m_width s /\ 0 < m_height s /\ m_width s * m_height s < 2 ^ 32.

Definition front_ok (s : screen) : Prop :=
  size (m_front s) = m_width s * m_height s.

Definition back_ok (s : screen) : Prop :=
  size (m_back s) = m_width s * m_height s.

(** The bounds section 3 of the specification gives for the cursor. *)
Definition cursor_ok (s : screen) : Prop :=
  m_cursorX s < m_width s /\ m_cursorY s <= m_height s.

(** A computation that returns the object it received. *)
Definition readonly {A : Type} (m : M A) : Prop :=
  forall s a s' o, m s = Ok (a, s', o) -> s' = s.

(** A colour whose three channels are [std::uint8_t] values. *)
Definition valid_color (c : color) : Prop :=
  r c < 256 /\ g c < 256 /\ b c < 256.

(** The same object at another origin. *)
Definition with_origin (X Y : N) (s : screen) : screen :=
  mkscreen X Y (m_width s) (m_height s) (m_front s) (m_back s)
           (m_cursorX s) (m_cursorY s) (m_cursorAttribs s) (m_fillChar s).

(** The result of a call with [g] applied to the object it leaves. *)
Definition lift_state {A : Type} (g : screen -> screen)
  (x : result (A * screen * string)) : result (A * screen * string) :=
  match x with
  | Ok (a, s, o) => Ok (a, g s, o)
  | AssertFail => AssertFail
  | Undefined => Undefined
  end.

(** A computation that does not look at what [g] changes: run on [g s]
    it does what it does on [s], with [g] applied to the object it leaves. *)
Definition blind {A : Type} (g : screen -> screen) (m : M A) : Prop :=
  forall s, m (g s) = lift_state g (m s).

(** A computation that overwrites what [g] changes. *)
Definition absorbs {A : Type} (g : screen -> screen) (m : M A) : Prop :=
  forall s, m (g s) = m s.

(** The glyphs of a run of cells, as text. *)
Definition glyphs_text (cs : list cell) : string :=
  string_of_list_ascii (map chr cs).

(** For each row of [ys], a cursor move to its first column and then the
    glyphs of its [w] cells in [v]. *)
Fixpoint plain_rows_text (w : N) (v : list cell) (ys : list N) : string :=
  match ys with
  | [] => EmptyString
  | y :: t =>
      (ANSI_MOVE_ss 0 y ++ glyphs_text (slice v (mkspan (y * w) w))
       ++ plain_rows_text w v t)%string
  end.

(* ------------------------------------------------------------------ *)
(** ** Some screens a program can build

    They are taken from runs in which the uninitialised flags of the
    constructor read as [unset]. *)

Definition screen_after {A : Type} (x : result (A * screen * string)) : screen :=
  match x with
  | Ok (_, s, _) => s
  | _ => screen_init unset unset 0 0 0 0 (ascii_of_N 32) black white
  end.

(** [screen(0, 0, 1, 1)], then [setc(0, 0, 'X')]. *)
Definition plotted_1x1 : screen :=
  Eval vm_compute in
    screen_after (on_new (screen_new_plain unset unset 0 0 1 1) (setc 0 0 "X")).

(** [screen(0, 0, 2, 2)]. *)
Definition blank_2x2 : screen :=
  Eval vm_compute in screen_after (screen_new_plain unset unset 0 0 2 2).

(** [screen(0, 0, 1, 3)], then [puts("abc")]: three rows of one cell and
    the cursor below the last of them. *)
Definition column_abc : screen :=
  Eval vm_compute in
    screen_after (on_new (screen_new_plain unset unset 0 0 1 3) (puts "abc")).

(** [screen(0, 0, 2, 2)], then [puts("abcd")]: both rows written and the
    cursor below the last of them. *)
Definition filled_2x2 : screen :=
  Eval vm_compute in
    screen_after (on_new (screen_new_plain unset unset 0 0 2 2) (puts "abcd")).

(** [screen(0, 0, 5, 3)], then [setcursorxy(0, 1)]. *)
Definition blank_5x3_row1 : screen :=
  Eval vm_compute in
    screen_after (on_new (screen_new_plain unset unset 0 0 5 3) (setcursorxy 0 1)).

(* ------------------------------------------------------------------ *)
(** ** Reasoning in the monad *)

Lemma bind_Ok {A B : Type} (m : M A) (f : A -> M B) s a s1 o1 :
  m s = Ok (a, s1, o1) ->
  bind m f s =
    match f a s1 with
    | Ok (b, s2, o2) => Ok (b, s2, (o1 ++ o2)%string)
    | AssertFail => AssertFail
    | Undefined => Undefined
    end.
Proof. intros H. unfold bind. rewrite H. reflexivity. Qed.

Lemma bind_Ok_inv {A B : Type} (m : M A) (f : A -> M B) s b s2 o :
  bind m f s = Ok (b, s2, o) ->
  exists a s1 o1 o2,
    m s = Ok (a, s1, o1) /\ f a s1 = Ok (b, s2, o2) /\ o = (o1 ++ o2)%string.
Proof.
  unfold bind. destruct (m s) as [[[a s1] o1]| |]; try discriminate.
  destruct (f a s1) as [[[b' s2'] o2]| |] eqn:E; try discriminate.
  intros H. inversion H; subst. exists a, s1, o1, o2. auto.
Qed.

Lemma bind_quiet {A B : Type} (m : M A) (f : A -> M B) s a s1 :
  m s = Ok (a, s1, EmptyString) -> bind m f s = f a s1.
Proof.
  intros H. rewrite (bind_Ok _ _ _ _ _ _ H).
  destruct (f a s1) as [[[b' s2] o2]| |]; reflexivity.
Qed.

Lemma bind_silent {A B : Type} (m : M A) (f : A -> M B) s a :
  m s = Ok (a, s, EmptyString) -> bind m f s = f a s.
Proof. apply bind_quiet. Qed.

Lemma bind_get {B : Type} (f : screen -> M B) s : bind get f s = f s s.
Proof. apply bind_silent. reflexivity. Qed.

Lemma bind_ret {A B : Type} (a : A) (f : A -> M B) s : bind (ret a) f s = f a s.
Proof. apply bind_silent. reflexivity. Qed.

Lemma bind_assert_true {B : Type} (c : bool) (f : unit -> M B) s :
  c = true -> bind (assert c) f s = f tt s.
Proof. intros ->. apply bind_silent. reflexivity. Qed.

Lemma append_empty_r (o : string) : (o ++ EmptyString)%string = o.
Proof. induction o as [|c o IH]; simpl; [reflexivity | now rewrite IH]. Qed.

Lemma append_assoc (a b c : string) :
  ((a ++ b) ++ c)%string = (a ++ (b ++ c))%string.
Proof. induction a as [|x a IH]; simpl; [reflexivity | now rewrite IH]. Qed.

(** *** Read-only computations *)

Lemma readonly_ret {A : Type} (a : A) : readonly (ret a).
Proof. intros s a' s' o H. inversion H. reflexivity. Qed.

Lemma readonly_get : readonly get.
Proof. intros s a' s' o H. inversion H. reflexivity. Qed.

Lemma readonly_cout t : readonly (cout t).
Proof. intros s a' s' o H. inversion H. reflexivity. Qed.

Lemma readonly_assert c : readonly (assert c).
Proof. intros s a' s' o H. unfold assert in H. destruct c; inversion H. reflexivity. Qed.

Lemma readonly_undefined {A : Type} : readonly (@undefined A).
Proof. intros s a' s' o H. discriminate H. Qed.

Lemma readonly_bind {A B : Type} (m : M A) (f : A -> M B) :
  readonly m -> (forall a, readonly (f a)) -> readonly (bind m f).
Proof.
  intros Hm Hf s b s2 o H.
  apply bind_Ok_inv in H. destruct H as (a & s1 & o1 & o2 & H1 & H2 & _).
  apply Hm in H1. subst s1. now apply Hf in H2.
Qed.

Lemma readonly_if {A : Type} (c : bool) (m1 m2 : M A) :
  readonly m1 -> readonly m2 -> readonly (if c then m1 else m2).
Proof. destruct c; auto. Qed.

Lemma readonly_foreach {X A : Type} (xs : list X) (body : X -> A -> M A) :
  (forall x a, readonly (body x a)) -> forall a, readonly (foreach xs body a).
Proof.
  intros Hb. induction xs as [|x t IH]; intros a; simpl.
  - apply readonly_ret.
  - apply readonly_bind; [apply Hb | exact IH].
Qed.

Lemma readonly_span_of v off len : readonly (span_of v off len).
Proof.
  unfold span_of. apply readonly_if; [apply readonly_ret | apply readonly_undefined].
Qed.

Lemma readonly_span_at v sp x : readonly (span_at v sp x).
Proof.
  unfold span_at. apply readonly_if; [|apply readonly_undefined].
  destruct (nth_error v _); [apply readonly_ret | apply readonly_undefined].
Qed.

Create HintDb straw_ro discriminated.
#[local] Hint Resolve readonly_ret readonly_get readonly_cout readonly_assert
  readonly_undefined readonly_span_of readonly_span_at : straw_ro.
#[local] Hint Extern 2 (readonly (bind _ _)) =>
  (apply readonly_bind; [|intro]) : straw_ro.
#[local] Hint Extern 2 (readonly (if _ then _ else _)) =>
  apply readonly_if : straw_ro.
#[local] Hint Extern 2 (readonly (foreach _ _ _)) =>
  (apply readonly_foreach; intros) : straw_ro.

Lemma readonly_row i : readonly (row i).
Proof. unfold row. auto with straw_ro. Qed.

Lemma readonly_front_at sp x : readonly (front_at sp x).
Proof. unfold front_at. auto with straw_ro. Qed.

Lemma readonly_back_at sp x : readonly (back_at sp x).
Proof. unfold back_at. auto with straw_ro. Qed.

#[local] Hint Resolve readonly_row readonly_front_at readonly_back_at : straw_ro.

Lemma readonly_ANSI_MOVE x y : readonly (ANSI_MOVE x y).
Proof. apply readonly_cout. Qed.

Lemma readonly_ANSI_COLOR_FG c : readonly (ANSI_COLOR_FG c).
Proof. apply readonly_cout. Qed.

Lemma readonly_ANSI_COLOR_BG c : readonly (ANSI_COLOR_BG c).
Proof. apply readonly_cout. Qed.

#[local] Hint Resolve readonly_ANSI_MOVE readonly_ANSI_COLOR_FG
  readonly_ANSI_COLOR_BG : straw_ro.

Ltac read_only :=
  repeat first
    [ solve [auto with straw_ro]
    | apply readonly_bind; [|intro]
    | apply readonly_if
    | apply readonly_foreach; intros ].

Lemma readonly_flush : readonly flush.
Proof. unfold flush. read_only. Qed.

(* ------------------------------------------------------------------ *)
(** ** The screens above are the ones the programs build *)

Example plotted_1x1_built :
  on_new (screen_new_plain unset unset 0 0 1 1) (setc 0 0 "X")
  = Ok (tt, plotted_1x1, EmptyString).
Proof. vm_compute. reflexivity. Qed.

Example blank_2x2_built :
  exists o, screen_new_plain unset unset 0 0 2 2 = Ok (tt, blank_2x2, o).
Proof. eexists. vm_compute. reflexivity. Qed.

Example column_abc_built :
  on_new (screen_new_plain unset unset 0 0 1 3) (puts "abc")
  = Ok (tt, column_abc, EmptyString).
Proof. vm_compute. reflexivity. Qed.

Example blank_5x3_row1_built :
  on_new (screen_new_plain unset unset 0 0 5 3) (setcursorxy 0 1)
  = Ok (tt, blank_5x3_row1, EmptyString).
Proof. vm_compute. reflexivity. Qed.

(* ------------------------------------------------------------------ *)
(** ** The cursor *)

(** C5.  After [setcursorxy(x, y)] the query [getcursorx()] returns [y],
    the row, and not [x]: it reads [m_cursorY]. *)
Theorem getcursorx_reads_cursorY (x y : N) (s : screen) :
  (setcursorxy x y ;; getcursorx) s
  = Ok (y, with_cursorY y (with_cursorX x s), EmptyString).
Proof. reflexivity. Qed.

Lemma getcursory_after_setcursorxy (x y : N) (s : screen) :
  (setcursorxy x y ;; getcursory) s
  = Ok (y, with_cursorY y (with_cursorX x s), EmptyString).
Proof. reflexivity. Qed.

(** C10.  [setcursorxy(x, y)] always returns, writes nothing, and stores
    both arguments as they are, every other member unchanged; when
    [x >= m_width] or [y > m_height] the object it leaves is outside the
    cursor bounds of the data model. *)
Theorem setcursorxy_stores_any_pair (x y : N) (s : screen) :
  setcursorxy x y s
  = Ok (tt, mkscreen (m_x s) (m_y s) (m_width s) (m_height s) (m_front s)
                     (m_back s) x y (m_cursorAttribs s) (m_fillChar s),
        EmptyString)
  /\ (m_width s <= x \/ m_height s < y ->
      forall s' o, setcursorxy x y s = Ok (tt, s', o) -> ~ cursor_ok s').
Proof.
  split; [reflexivity|].
  intros Hout s' o H. inversion H; subst; clear H.
  unfold cursor_ok; simpl. lia.
Qed.

Lemma setcursorxy_stores_any_pair_witness :
  (m_width blank_2x2 <= 7 \/ m_height blank_2x2 < 9)
  /\ forall s' o, setcursorxy 7 9 blank_2x2 = Ok (tt, s', o) -> ~ cursor_ok s'.
Proof.
  assert (H : m_width blank_2x2 <= 7 \/ m_height blank_2x2 < 9)
    by (left; vm_compute; discriminate).
  split; [exact H|].
  exact (proj2 (setcursorxy_stores_any_pair 7 9 blank_2x2) H).
Defined.

(* ------------------------------------------------------------------ *)
(** ** Flush *)

(** C9.  A [flush] that returns leaves the front grid, the cursor
    position and the cursor attributes as they were. *)
Theorem flush_frame (s s' : screen) (u : unit) (o : string) :
  flush s = Ok (u, s', o) ->
  m_front s' = m_front s
  /\ m_cursorX s' = m_cursorX s /\ m_cursorY s' = m_cursorY s
  /\ m_cursorAttribs s' = m_cursorAttribs s.
Proof. intros H. apply readonly_flush in H. subst s'. auto. Qed.

Lemma flush_frame_witness :
  flush plotted_1x1
  = Ok (tt, plotted_1x1, String ESC "[1;1HX")
  /\ m_front plotted_1x1 = m_front plotted_1x1
  /\ m_cursorX plotted_1x1 = m_cursorX plotted_1x1
  /\ m_cursorY plotted_1x1 = m_cursorY plotted_1x1
  /\ m_cursorAttribs plotted_1x1 = m_cursorAttribs plotted_1x1.
Proof.
  assert (H : flush plotted_1x1 = Ok (tt, plotted_1x1, String ESC "[1;1HX"))
    by (vm_compute; reflexivity).
  split; [exact H|].
  exact (flush_frame _ _ _ _ H).
Defined.

(** C2.  [flush] never copies the front grid into the back grid: when the
    two differ before a [flush] they differ after it. *)
Theorem flush_leaves_back_stale (s s' : screen) (u : unit) (o : string) :
  flush s = Ok (u, s', o) ->
  m_back s <> m_front s ->
  m_back s' = m_back s /\ m_back s' <> m_front s'.
Proof. intros H Hd. apply readonly_flush in H. subst s'. auto. Qed.

Lemma flush_leaves_back_stale_witness :
  flush plotted_1x1 = Ok (tt, plotted_1x1, String ESC "[1;1HX")
  /\ m_back plotted_1x1 <> m_front plotted_1x1
  /\ m_back plotted_1x1 = m_back plotted_1x1
  /\ m_back plotted_1x1 <> m_front plotted_1x1.
Proof.
  assert (H : flush plotted_1x1 = Ok (tt, plotted_1x1, String ESC "[1;1HX"))
    by (vm_compute; reflexivity).
  assert (Hd : m_back plotted_1x1 <> m_front plotted_1x1)
    by (vm_compute; discriminate).
  split; [exact H|]. split; [exact Hd|].
  exact (flush_leaves_back_stale _ _ _ _ H Hd).
Defined.

(** C4.  With no mutation of the front grid in between, a second [flush]
    writes again exactly what the first one wrote, which is not empty when
    the first one had something to write. *)
Theorem second_flush_repeats_first (s s1 : screen) (u : unit) (o : string) :
  flush s = Ok (u, s1, o) -> flush s1 = Ok (u, s1, o).
Proof. intros H. pose proof (readonly_flush _ _ _ _ H) as E. subst s1. exact H. Qed.

Lemma second_flush_repeats_first_witness :
  flush plotted_1x1 = Ok (tt, plotted_1x1, String ESC "[1;1HX")
  /\ flush plotted_1x1 = Ok (tt, plotted_1x1, String ESC "[1;1HX")
  /\ String ESC "[1;1HX" <> EmptyString.
Proof.
  assert (H : flush plotted_1x1 = Ok (tt, plotted_1x1, String ESC "[1;1HX"))
    by (vm_compute; reflexivity).
  split; [exact H|]. split; [|discriminate].
  exact (second_flush_repeats_first _ _ _ _ H).
Defined.

(* ------------------------------------------------------------------ *)
(** ** Colour emissions *)

Lemma first_two_append (a t : string) (p : ascii * ascii) :
  first_two a = Some p -> first_two (a ++ t) = Some p.
Proof.
  destruct a as [|x [|y a]]; simpl; try discriminate. auto.
Qed.

Lemma upto_complete (n k : N) : k < n -> In k (upto n).
Proof.
  intros H. unfold upto. apply in_map_iff. exists (N.to_nat k).
  split; [apply N2Nat.id|]. apply in_seq. lia.
Qed.

Lemma no_numeral_is_its_byte (n : N) : n < 256 -> numeral_is_byte n = false.
Proof.
  intros H.
  assert (A : forallb (fun k => negb (numeral_is_byte k)) (upto 256) = true)
    by (vm_compute; reflexivity).
  rewrite forallb_forall in A. apply upto_complete in H. apply A in H.
  now apply negb_true_iff in H.
Qed.

Lemma byte_text_is_not_numeral_text (n : N) (t1 t2 : string) :
  n < 256 ->
  (put_uint8 n ++ String ";" t1)%string <> (dec n ++ String ";" t2)%string.
Proof.
  intros Hn E. apply no_numeral_is_its_byte in Hn.
  unfold numeral_is_byte in Hn.
  destruct (first_two (dec n ++ String ";" EmptyString)) as [[a c]|] eqn:F;
    [|discriminate].
  apply (first_two_append _ t2) in F.
  rewrite append_assoc in F. simpl in F. rewrite <- E in F.
  simpl in F. inversion F; subst.
  rewrite Ascii.eqb_refl in Hn. discriminate.
Qed.

(** C7.  Both emissions write [ESC [ 38;2;] and then each channel as the
    single character whose code is the channel, not as its numeral: the
    background emission writes the very text of the foreground one (38,
    not 48), and neither writes the sequence of the specification. *)
Theorem colour_emissions_are_not_the_sgr_sequences (c : color) (s : screen) :
  r c < 256 ->
  ANSI_COLOR_BG c s = ANSI_COLOR_FG c s
  /\ ANSI_COLOR_FG c s <> Ok (tt, s, sgr_colour_spec "38" c)
  /\ ANSI_COLOR_BG c s <> Ok (tt, s, sgr_colour_spec "48" c).
Proof.
  intros Hr. split; [reflexivity|]. split.
  - intros E. inversion E as [E'].
    unfold ANSI_COLOR_FG_ss, sgr_colour_spec, ANSI_ESCAPE in E'. simpl in E'.
    inversion E' as [E2].
    exact (byte_text_is_not_numeral_text _ _ _ Hr E2).
  - intros E. inversion E.
Qed.

Lemma colour_emissions_are_not_the_sgr_sequences_witness :
  r white < 256
  /\ ANSI_COLOR_BG white blank_2x2 = ANSI_COLOR_FG white blank_2x2
  /\ ANSI_COLOR_FG white blank_2x2
     <> Ok (tt, blank_2x2, sgr_colour_spec "38" white)
  /\ ANSI_COLOR_BG white blank_2x2
     <> Ok (tt, blank_2x2, sgr_colour_spec "48" white).
Proof.
  assert (H : r white < 256) by (vm_compute; reflexivity).
  split; [exact H|].
  exact (colour_emissions_are_not_the_sgr_sequences white blank_2x2 H).
Defined.

Example ANSI_COLOR_FG_ABC (s : screen) :
  ANSI_COLOR_FG (mkcolor 65 66 67) s = Ok (tt, s, String ESC "[38;2;A;B;Cm").
Proof. reflexivity. Qed.

Example sgr_colour_spec_ABC :
  sgr_colour_spec "48" (mkcolor 65 66 67) = String ESC "[48;2;65;66;67m".
Proof. reflexivity. Qed.

(* ------------------------------------------------------------------ *)
(** ** Rows *)

Lemma wrap32_small (n : N) : n < 2 ^ 32 -> wrap32 n = n.
Proof. apply N.mod_small. Qed.

Lemma wrap64_small (n : N) : n < 2 ^ 64 -> wrap64 n = n.
Proof. apply N.mod_small. Qed.

(** C6.  [operator[]] compares its index with [m_width * m_height], not
    with [m_height]: an index from [m_height] up to that product passes the
    assertion. *)
Theorem row_index_is_checked_against_area (s : screen) (i : N) :
  m_height s <= i ->
  i < wrap32 (m_width s * m_height s) ->
  row i s <> AssertFail.
Proof.
  intros _ Hi. unfold row. rewrite bind_get.
  rewrite bind_assert_true by (now apply N.ltb_lt).
  unfold span_of. destruct (_ <=? _); discriminate.
Qed.

Lemma row_index_is_checked_against_area_witness :
  m_height blank_2x2 <= 2
  /\ 2 < wrap32 (m_width blank_2x2 * m_height blank_2x2)
  /\ row 2 blank_2x2 <> AssertFail.
Proof.
  assert (H1 : m_height blank_2x2 <= 2) by (vm_compute; discriminate).
  assert (H2 : 2 < wrap32 (m_width blank_2x2 * m_height blank_2x2))
    by (vm_compute; reflexivity).
  split; [exact H1|]. split; [exact H2|].
  exact (row_index_is_checked_against_area blank_2x2 2 H1 H2).
Defined.

Example row_2_of_2x2 : row 2 blank_2x2 = Undefined.
Proof. reflexivity. Qed.

Example row_2_of_empty_width :
  row 2 (screen_init unset unset 0 0 0 5 " " black white) = AssertFail.
Proof. reflexivity. Qed.

Lemma dims_ok_width32 (s : screen) : dims_ok s -> m_width s < 2 ^ 32.
Proof. unfold dims_ok. nia. Qed.

Lemma dims_ok_height32 (s : screen) : dims_ok s -> m_height s < 2 ^ 32.
Proof. unfold dims_ok. nia. Qed.

(** Within the height, [operator[]] returns the [m_width] cells from
    position [i * m_width] of the front grid. *)
Lemma row_in_range (s : screen) (i : N) :
  dims_ok s -> front_ok s -> i < m_height s ->
  row i s = Ok (mkspan (i * m_width s) (m_width s), s, EmptyString).
Proof.
  intros D F Hi. pose proof D as (Hw & Hh & Hwh). unfold front_ok in F.
  unfold row. rewrite bind_get.
  rewrite bind_assert_true
    by (apply N.ltb_lt; rewrite wrap32_small by exact Hwh; nia).
  rewrite wrap64_small by (change (2 ^ 64) with 18446744073709551616;
                           change (2 ^ 32) with 4294967296 in Hwh; nia).
  unfold span_of. rewrite F.
  replace (i * m_width s + m_width s <=? m_width s * m_height s) with true
    by (symmetry; apply N.leb_le; nia).
  reflexivity.
Qed.

(* ------------------------------------------------------------------ *)
(** ** Scroll *)

Lemma scroll_unfold (s : screen) :
  scroll s =
    if m_width s <=? size (m_front s) then
      let v := skipn (N.to_nat (m_width s)) (m_front s) in
      if m_width s <=? size v then
        Ok (tt,
            mkscreen (m_x s) (m_y s) (m_width s) (m_height s)
              (firstn (N.to_nat (size v - m_width s)) v
               ++ repeat (mkcell (m_fillChar s) (m_cursorAttribs s))
                         (N.to_nat (m_width s)))
              (m_back s) (m_cursorX s) (sub32 (m_height s) 1)
              (m_cursorAttribs s) (m_fillChar s),
            EmptyString)
      else Undefined
    else Undefined.
Proof.
  unfold scroll, bind, get, modify, undefined; simpl.
  destruct (m_width s <=? size (m_front s)); simpl; [|reflexivity].
  destruct (m_width s <=? size (skipn _ _)); reflexivity.
Qed.

Lemma size_skipn (v : list cell) (n : N) :
  size (skipn (N.to_nat n) v) = size v - n.
Proof. unfold size. rewrite length_skipn. lia. Qed.

Lemma size_app (v1 v2 : list cell) : size (v1 ++ v2) = size v1 + size v2.
Proof. unfold size. rewrite length_app. lia. Qed.

Lemma size_firstn (v : list cell) (n : N) :
  n <= size v -> size (firstn (N.to_nat n) v) = n.
Proof. unfold size. intros H. rewrite length_firstn. lia. Qed.

Lemma size_repeat (c : cell) (n : N) : size (repeat c (N.to_nat n)) = n.
Proof. unfold size. rewrite repeat_length. lia. Qed.

(** C1.  A [scroll] that returns leaves the front grid one row short:
    [m_width * (m_height - 1)] cells, with the dimensions unchanged, so the
    front grid no longer has [m_width * m_height] cells. *)
Theorem scroll_leaves_front_one_row_short (s s' : screen) (u : unit) (o : string) :
  scroll s = Ok (u, s', o) ->
  0 < m_width s ->
  front_ok s ->
  m_width s' = m_width s /\ m_height s' = m_height s
  /\ size (m_front s') = m_width s * (m_height s - 1)
  /\ ~ front_ok s'.
Proof.
  intros H Hw F. rewrite scroll_unfold in H. unfold front_ok in *.
  destruct (m_width s <=? size (m_front s)) eqn:E1; [|discriminate].
  cbv zeta in H.
  destruct (m_width s <=? size (skipn _ _)) eqn:E2; [|discriminate].
  inversion H; subst; clear H. simpl.
  apply N.leb_le in E1, E2. rewrite size_skipn in E2.
  assert (Hs : size (firstn (N.to_nat (size (skipn (N.to_nat (m_width s)) (m_front s))
                                       - m_width s))
                            (skipn (N.to_nat (m_width s)) (m_front s))
                     ++ repeat (mkcell (m_fillChar s) (m_cursorAttribs s))
                               (N.to_nat (m_width s)))
               = m_width s * (m_height s - 1)).
  { rewrite size_app, size_repeat, size_firstn by lia.
    rewrite size_skipn, F. rewrite N.mul_sub_distr_l. nia. }
  repeat split; try exact Hs. rewrite Hs. nia.
Qed.

Lemma scroll_leaves_front_one_row_short_witness :
  (exists s', scroll blank_2x2 = Ok (tt, s', EmptyString)
              /\ size (m_front s') = 2)
  /\ 0 < m_width blank_2x2
  /\ front_ok blank_2x2.
Proof.
  assert (Hw : 0 < m_width blank_2x2) by (vm_compute; reflexivity).
  assert (F : front_ok blank_2x2) by (vm_compute; reflexivity).
  split; [|split; [exact Hw | exact F]].
  eexists. split; [vm_compute; reflexivity|].
  exact (proj1 (proj2 (proj2
    (scroll_leaves_front_one_row_short blank_2x2 _ tt EmptyString eq_refl Hw F)))).
Defined.

(** C3.  A [scroll] that returns sets [m_cursorY] to [m_height - 1], and
    makes the front grid the former rows [1 .. m_height - 2] followed by one
    row of fill cells: the former last row is overwritten by the fill row,
    which is row [m_height - 2] of a grid that has lost its last row. *)
Theorem scroll_overwrites_former_last_row (s s' : screen) (u : unit) (o : string) :
  scroll s = Ok (u, s', o) ->
  front_ok s ->
  m_cursorY s' = sub32 (m_height s) 1
  /\ m_front s'
     = firstn (N.to_nat (m_width s * (m_height s - 2)))
              (skipn (N.to_nat (m_width s)) (m_front s))
       ++ repeat (mkcell (m_fillChar s) (m_cursorAttribs s))
                 (N.to_nat (m_width s)).
Proof.
  intros H F. rewrite scroll_unfold in H. unfold front_ok in *.
  destruct (m_width s <=? size (m_front s)) eqn:E1; [|discriminate].
  cbv zeta in H.
  destruct (m_width s <=? size (skipn _ _)) eqn:E2; [|discriminate].
  inversion H; subst; clear H. simpl. split; [reflexivity|].
  rewrite size_skipn, F.
  replace (m_width s * m_height s - m_width s - m_width s)
    with (m_width s * (m_height s - 2)); [reflexivity|].
  rewrite N.mul_sub_distr_l. lia.
Qed.

Lemma scroll_overwrites_former_last_row_witness :
  exists s',
    scroll column_abc = Ok (tt, s', EmptyString)
    /\ front_ok column_abc
    /\ chars column_abc = ["a"; "b"; "c"]%char
    /\ chars s' = ["b"; " "]%char
    /\ m_cursorY s' = sub32 (m_height column_abc) 1
    /\ m_front s'
       = firstn (N.to_nat (m_width column_abc * (m_height column_abc - 2)))
                (skipn (N.to_nat (m_width column_abc)) (m_front column_abc))
         ++ repeat (mkcell (m_fillChar column_abc) (m_cursorAttribs column_abc))
                   (N.to_nat (m_width column_abc)).
Proof.
  assert (F : front_ok column_abc) by (vm_compute; reflexivity).
  eexists. split; [vm_compute; reflexivity|].
  split; [exact F|]. split; [reflexivity|]. split; [reflexivity|].
  exact (scroll_overwrites_former_last_row column_abc _ tt EmptyString eq_refl F).
Defined.

(* ------------------------------------------------------------------ *)
(** ** Writing glyphs *)

(** [cs] written over the cells of [v] from position [n] on. *)
Lemma list_set_split (v : list cell) (n : nat) (c : cell) :
  (n < List.length v)%nat ->
  list_set v n c = firstn n v ++ c :: skipn (S n) v.
Proof.
  revert n. induction v as [|h t IH]; intros n Hn; simpl in Hn; [lia|].
  destruct n as [|n]; simpl; [reflexivity|].
  rewrite IH by lia. reflexivity.
Qed.

Lemma overwrite_step (v : list cell) (n : nat) (c : cell) (cs : list cell) :
  (n < List.length v)%nat ->
  let v1 := firstn n v ++ c :: skipn (S n) v in
  firstn (S n) v1 ++ cs ++ skipn (S n + List.length cs) v1
  = firstn n v ++ (c :: cs) ++ skipn (n + List.length (c :: cs)) v.
Proof.
  intros Hn v1. subst v1.
  assert (L : List.length (firstn n v) = n) by (rewrite length_firstn; lia).
  replace (firstn n v ++ c :: skipn (S n) v)
    with ((firstn n v ++ [c]) ++ skipn (S n) v)
    by (rewrite <- app_assoc; reflexivity).
  assert (L1 : List.length (firstn n v ++ [c]) = S n)
    by (rewrite length_app, L; simpl; lia).
  rewrite firstn_app, skipn_app, L1.
  replace (S n - S n)%nat with 0%nat by lia.
  replace (S n + List.length cs - S n)%nat with (List.length cs) by lia.
  rewrite firstn_all2 by lia. simpl firstn. rewrite app_nil_r.
  rewrite (skipn_all2 (firstn n v ++ [c])) by lia.
  rewrite skipn_skipn. rewrite app_nil_l.
  replace (List.length cs + S n)%nat with (n + List.length (c :: cs))%nat
    by (simpl; lia).
  rewrite <- app_assoc. reflexivity.
Qed.

Lemma putc_glyph (s : screen) (c : ascii) :
  dims_ok s -> front_ok s ->
  m_cursorX s < m_width s -> m_cursorY s < m_height s ->
  c <> newline ->
  putc c s
  = Ok (tt,
        mkscreen (m_x s) (m_y s) (m_width s) (m_height s)
          (list_set (m_front s)
                    (N.to_nat (m_cursorY s * m_width s + m_cursorX s))
                    (mkcell c (m_cursorAttribs s)))
          (m_back s)
          (if m_cursorX s + 1 =? m_width s then 0 else m_cursorX s + 1)
          (if m_cursorX s + 1 =? m_width s then m_cursorY s + 1 else m_cursorY s)
          (m_cursorAttribs s) (m_fillChar s),
        EmptyString).
Proof.
  intros D F Hx Hy Hc.
  pose proof (dims_ok_width32 s D) as W32.
  pose proof (dims_ok_height32 s D) as H32.
  unfold putc. rewrite bind_get.
  replace (m_cursorY s =? m_height s) with false
    by (symmetry; apply N.eqb_neq; lia).
  rewrite bind_ret.
  replace (Ascii.eqb c newline) with false
    by (symmetry; now apply Ascii.eqb_neq).
  assert (Hxb : (m_cursorX s <? m_width s) = true) by (now apply N.ltb_lt).
  assert (Hib : (m_cursorY s * m_width s + m_cursorX s <? size (m_front s)) = true).
  { apply N.ltb_lt. unfold front_ok in F. rewrite F. nia. }
  assert (Hmid :
    (s1 <- get ;;
     sp <- row (m_cursorY s1) ;;
     modify (with_cursorX (wrap32 (m_cursorX s1 + 1))) ;;
     front_span_assign sp (m_cursorX s1) (mkcell c (m_cursorAttribs s1))) s
    = Ok (tt,
          mkscreen (m_x s) (m_y s) (m_width s) (m_height s)
            (list_set (m_front s)
                      (N.to_nat (m_cursorY s * m_width s + m_cursorX s))
                      (mkcell c (m_cursorAttribs s)))
            (m_back s) (m_cursorX s + 1) (m_cursorY s)
            (m_cursorAttribs s) (m_fillChar s),
          EmptyString)).
  { rewrite bind_get.
    rewrite (bind_silent _ _ _ _ (row_in_range s _ D F Hy)).
    rewrite wrap32_small by lia.
    unfold front_span_assign, front_assign. cbn [sp_len sp_off]. rewrite Hxb.
    cbv [bind modify get]. cbn [m_front with_cursorX].
    rewrite Hib. reflexivity. }
  rewrite (bind_quiet _ _ _ _ _ Hmid). rewrite bind_get. simpl.
  destruct (m_cursorX s + 1 =? m_width s); [|reflexivity].
  rewrite wrap32_small by lia. reflexivity.
Qed.

Lemma length_list_set (v : list cell) (n : nat) (c : cell) :
  List.length (list_set v n c) = List.length v.
Proof.
  revert n. induction v as [|h t IH]; intros [|n]; simpl; auto.
Qed.

Lemma putc_run (cs : list ascii) : forall s : screen,
  dims_ok s -> front_ok s ->
  m_cursorX s < m_width s -> m_cursorY s < m_height s ->
  m_cursorX s + N.of_nat (List.length cs) <= m_width s ->
  (forall c, In c cs -> c <> newline) ->
  foreach cs (fun c _ => putc c) tt s
  = Ok (tt,
        mkscreen (m_x s) (m_y s) (m_width s) (m_height s)
          (firstn (N.to_nat (m_cursorY s * m_width s + m_cursorX s)) (m_front s)
           ++ glyph_cells (m_cursorAttribs s) cs
           ++ skipn (N.to_nat (m_cursorY s * m_width s + m_cursorX s)
                     + List.length cs) (m_front s))
          (m_back s)
          (if m_cursorX s + N.of_nat (List.length cs) =? m_width s
           then 0 else m_cursorX s + N.of_nat (List.length cs))
          (if m_cursorX s + N.of_nat (List.length cs) =? m_width s
           then m_cursorY s + 1 else m_cursorY s)
          (m_cursorAttribs s) (m_fillChar s),
        EmptyString).
Proof.
  induction cs as [|c cs IH]; intros s D F Hx Hy Hlen Hnl.
  - simpl. rewrite Nat.add_0_r, N.add_0_r, firstn_skipn.
    replace (m_cursorX s =? m_width s) with false
      by (symmetry; apply N.eqb_neq; lia).
    destruct s; reflexivity.
  - assert (Hc : c <> newline) by (apply Hnl; left; reflexivity).
    assert (Hin : (N.to_nat (m_cursorY s * m_width s + m_cursorX s)
                   < List.length (m_front s))%nat).
    { unfold front_ok, size in F. nia. }
    cbn [foreach].
    rewrite (bind_quiet _ _ _ _ _ (putc_glyph s c D F Hx Hy Hc)).
    rewrite list_set_split by exact Hin.
    destruct (m_cursorX s + 1 =? m_width s) eqn:E.
    + apply N.eqb_eq in E.
      destruct cs as [|c' cs]; [|simpl List.length in Hlen; lia].
      simpl List.length. replace (m_cursorX s + N.of_nat 1) with (m_cursorX s + 1) by lia.
      rewrite (proj2 (N.eqb_eq _ _) E).
      replace (N.to_nat (m_cursorY s * m_width s + m_cursorX s) + 1)%nat
        with (S (N.to_nat (m_cursorY s * m_width s + m_cursorX s))) by lia.
      reflexivity.
    + apply N.eqb_neq in E. simpl List.length in Hlen.
      rewrite IH; cbn [m_x m_y m_width m_height m_front m_back m_cursorX
                       m_cursorY m_cursorAttribs m_fillChar].
      * replace (N.to_nat (m_cursorY s * m_width s + (m_cursorX s + 1)))
          with (S (N.to_nat (m_cursorY s * m_width s + m_cursorX s))) by lia.
        pose proof (overwrite_step (m_front s) _ (mkcell c (m_cursorAttribs s))
                      (glyph_cells (m_cursorAttribs s) cs) Hin) as O.
        cbv zeta in O. unfold glyph_cells in O |- *.
        rewrite length_map in O. cbn [List.length map] in O |- *.
        rewrite length_map in O. rewrite O.
        replace (m_cursorX s + 1 + N.of_nat (List.length cs))
          with (m_cursorX s + N.of_nat (S (List.length cs))) by lia.
        reflexivity.
      * exact D.
      * unfold front_ok, size. cbn [m_front m_width m_height].
        rewrite <- list_set_split by exact Hin. rewrite length_list_set. exact F.
      * lia.
      * exact Hy.
      * lia.
      * intros k Hk. apply Hnl. right. exact Hk.
Qed.

Lemma length_list_ascii_of_string (str : string) :
  List.length (list_ascii_of_string str) = String.length str.
Proof. induction str as [|c str IH]; simpl; [reflexivity | now rewrite IH]. Qed.

Lemma slice_of_overwritten_run (v cs : list cell) (n : N) :
  n + size cs <= size v ->
  slice (firstn (N.to_nat n) v ++ cs ++ skipn (N.to_nat (n + size cs)) v)
        (mkspan n (size cs))
  = cs.
Proof.
  unfold slice, size. cbn [sp_off sp_len]. intros H.
  assert (L : List.length (firstn (N.to_nat n) v) = N.to_nat n)
    by (rewrite length_firstn; lia).
  rewrite skipn_app, L, Nat.sub_diag, skipn_all2 by lia. cbn [skipn app].
  rewrite firstn_app, Nat2N.id, Nat.sub_diag, firstn_all. cbn [firstn].
  apply app_nil_r.
Qed.

(** X24.  On a screen whose front grid has [m_width * m_height] cells, with
    the cursor at [(0, y)] and [y < m_height], [puts] of [m_width] glyphs
    none of which is the newline returns, writes nothing to the terminal,
    and leaves the cursor at [(0, y + 1)]; row [y] of the front grid holds
    the glyphs in their order, each with the cursor attributes, and every
    other cell and member is as before. *)
Theorem puts_full_row_wraps (s : screen) (str : string) (y : N) :
  dims_ok s -> front_ok s ->
  m_cursorX s = 0 -> m_cursorY s = y -> y < m_height s ->
  N.of_nat (String.length str) = m_width s ->
  (forall c, In c (list_ascii_of_string str) -> c <> newline) ->
  exists s',
    puts str s = Ok (tt, s', EmptyString)
    /\ m_cursorX s' = 0 /\ m_cursorY s' = y + 1
    /\ slice (m_front s') (mkspan (y * m_width s) (m_width s))
       = glyph_cells (m_cursorAttribs s) (list_ascii_of_string str)
    /\ s' = mkscreen (m_x s) (m_y s) (m_width s) (m_height s)
              (firstn (N.to_nat (y * m_width s)) (m_front s)
               ++ glyph_cells (m_cursorAttribs s) (list_ascii_of_string str)
               ++ skipn (N.to_nat (y * m_width s + m_width s)) (m_front s))
              (m_back s) 0 (y + 1) (m_cursorAttribs s) (m_fillChar s).
Proof.
  intros D F Hx Hy Hyh Hlen Hnl.
  pose proof D as (Hw & _ & _).
  rewrite <- length_list_ascii_of_string in Hlen.
  eexists. split.
  { unfold puts. rewrite putc_run; try assumption; try lia.
    rewrite Hx, Hy, N.add_0_l, N.add_0_r, Hlen, N.eqb_refl.
    replace (N.to_nat (y * m_width s) + List.length (list_ascii_of_string str))%nat
      with (N.to_nat (y * m_width s + m_width s)) by lia.
    reflexivity. }
  cbn [m_cursorX m_cursorY m_front].
  repeat split.
  assert (Z : size (glyph_cells (m_cursorAttribs s) (list_ascii_of_string str))
              = m_width s).
  { unfold size, glyph_cells. rewrite length_map. exact Hlen. }
  pose proof (slice_of_overwritten_run (m_front s)
                (glyph_cells (m_cursorAttribs s) (list_ascii_of_string str))
                (y * m_width s)) as S.
  rewrite Z in S. apply S. unfold front_ok in F. rewrite F. nia.
Qed.

Lemma puts_full_row_wraps_witness :
  dims_ok blank_5x3_row1 /\ front_ok blank_5x3_row1
  /\ m_cursorX blank_5x3_row1 = 0 /\ m_cursorY blank_5x3_row1 = 1
  /\ 1 < m_height blank_5x3_row1
  /\ N.of_nat (String.length "hello") = m_width blank_5x3_row1
  /\ exists s',
       puts "hello" blank_5x3_row1 = Ok (tt, s', EmptyString)
       /\ m_cursorX s' = 0 /\ m_cursorY s' = 2
       /\ chars s' = [" "; " "; " "; " "; " "; "h"; "e"; "l"; "l"; "o";
                      " "; " "; " "; " "; " "]%char.
Proof.
  assert (D : dims_ok blank_5x3_row1) by (vm_compute; auto).
  assert (F : front_ok blank_5x3_row1) by (vm_compute; reflexivity).
  assert (Hh : 1 < m_height blank_5x3_row1) by (vm_compute; reflexivity).
  assert (Hl : N.of_nat (String.length "hello") = m_width blank_5x3_row1)
    by (vm_compute; reflexivity).
  assert (Hn : forall c, In c (list_ascii_of_string "hello") -> c <> newline).
  { intros c Hc. simpl in Hc.
    repeat (destruct Hc as [<-|Hc]; [discriminate|]). destruct Hc. }
  repeat (split; [first [exact D | exact F | exact Hh | exact Hl | reflexivity]|]).
  destruct (puts_full_row_wraps blank_5x3_row1 "hello" 1 D F eq_refl eq_refl Hh Hl Hn)
    as (s' & E & Hx & Hy & _ & Es).
  exists s'. split; [exact E|]. split; [exact Hx|]. split; [exact Hy|].
  rewrite Es. reflexivity.
Defined.

(* ------------------------------------------------------------------ *)
(** ** Redraw, and flush on a reconciled screen *)

Lemma redraw_copies_front (s s' : screen) (u : unit) (o : string) :
  redraw s = Ok (u, s', o) -> s' = with_back (m_front s) s.
Proof.
  unfold redraw. intros H.
  apply bind_Ok_inv in H. destruct H as (sp0 & s1 & ? & ? & H1 & H & _).
  apply readonly_row in H1. subst s1.
  apply bind_Ok_inv in H. destruct H as (c0 & s1 & ? & ? & H1 & H & _).
  apply readonly_front_at in H1. subst s1.
  rewrite bind_get in H.
  apply bind_Ok_inv in H. destruct H as (a & s1 & ? & ? & H1 & H & _).
  assert (E : s1 = s).
  { revert H1. apply readonly_foreach. intros y cattr. read_only. }
  subst s1. rewrite bind_get in H. inversion H. reflexivity.
Qed.

(** After a [redraw] the back grid is the front grid, which is the one
    from before. *)
Lemma redraw_syncs (s s' : screen) (u : unit) (o : string) :
  redraw s = Ok (u, s', o) ->
  m_back s' = m_front s' /\ m_front s' = m_front s.
Proof. intros H. apply redraw_copies_front in H. subst s'. auto. Qed.

(** The constructor aborts on an empty grid: [redraw] starts with
    row 0 of the object, whose assertion is [0 < m_width * m_height]. *)
Lemma screen_new_empty_aborts (jc ja : junk) (X Y W H : N) (C : ascii)
      (B F : color) :
  wrap32 (W * H) = 0 -> screen_new jc ja X Y W H C B F = AssertFail.
Proof.
  intros E. unfold screen_new, redraw, row.
  cbv [bind get assert]. cbn [screen_init m_width m_height].
  rewrite E. reflexivity.
Qed.

(** What the constructor returns has both grids of [W * H] cells, equal
    to each other, and the cursor at the origin. *)
Lemma screen_new_ok (jc ja : junk) (X Y W H : N) (C : ascii) (B F : color) u s o :
  W * H < 2 ^ 32 ->
  screen_new jc ja X Y W H C B F = Ok (u, s, o) ->
  dims_ok s /\ front_ok s /\ back_ok s /\ m_back s = m_front s
  /\ m_cursorX s = 0 /\ m_cursorY s = 0.
Proof.
  intros Hwh E.
  assert (Hpos : wrap32 (W * H) <> 0).
  { intros Z. rewrite (screen_new_empty_aborts _ _ _ _ _ _ _ _ _ Z) in E. discriminate. }
  rewrite wrap32_small in Hpos by exact Hwh.
  unfold screen_new in E. apply redraw_copies_front in E. subst s.
  unfold dims_ok, front_ok, back_ok, size, screen_init.
  cbn [with_back m_width m_height m_front m_back m_cursorX m_cursorY].
  rewrite wrap32_small by exact Hwh. rewrite repeat_length.
  repeat split; try lia.
Qed.

Lemma color_eqb_refl (c : color) : color_eqb c c = true.
Proof. unfold color_eqb. now rewrite !N.eqb_refl. Qed.

Lemma attribs_eqb_refl (a : attribs) : attribs_eqb a a = true.
Proof. unfold attribs_eqb. now rewrite !color_eqb_refl, !Bool.eqb_reflx. Qed.

Lemma cell_eqb_refl (c : cell) : cell_eqb c c = true.
Proof. unfold cell_eqb. now rewrite Ascii.eqb_refl, attribs_eqb_refl. Qed.

Lemma cells_equal_refl (v : list cell) : cells_equal v v = true.
Proof.
  induction v as [|c v IH]; simpl; [reflexivity|].
  now rewrite cell_eqb_refl, IH.
Qed.

Lemma upto_sound (n k : N) : In k (upto n) -> k < n.
Proof.
  unfold upto. intros H. apply in_map_iff in H. destruct H as (j & <- & Hj).
  apply in_seq in Hj. lia.
Qed.

Lemma foreach_silent {X : Type} (xs : list X) (body : X -> unit -> M unit) s :
  (forall x, In x xs -> body x tt s = Ok (tt, s, EmptyString)) ->
  foreach xs body tt s = Ok (tt, s, EmptyString).
Proof.
  induction xs as [|x t IH]; intros Hb; simpl; [reflexivity|].
  rewrite (bind_silent _ _ _ _ (Hb x (or_introl eq_refl))).
  apply IH. intros k Hk. apply Hb. now right.
Qed.

Lemma back_span_in_range (s : screen) (y : N) :
  dims_ok s -> back_ok s -> y < m_height s ->
  span_of (m_back s) (wrap32 (y * m_width s)) (m_width s) s
  = Ok (mkspan (y * m_width s) (m_width s), s, EmptyString).
Proof.
  intros (Hw & Hh & Hwh) Bk Hy. unfold back_ok in Bk.
  rewrite wrap32_small by nia.
  unfold span_of. rewrite Bk.
  replace (y * m_width s + m_width s <=? m_width s * m_height s) with true
    by (symmetry; apply N.leb_le; nia).
  reflexivity.
Qed.

(** On a screen whose back grid is its front grid, as after the
    constructor or a [redraw], [flush] writes nothing. *)
Lemma flush_synced_silent (s : screen) :
  dims_ok s -> front_ok s -> m_back s = m_front s ->
  flush s = Ok (tt, s, EmptyString).
Proof.
  intros D F E.
  assert (Bk : back_ok s) by (unfold back_ok; rewrite E; exact F).
  unfold flush. rewrite bind_get. apply foreach_silent.
  intros y Hy. apply upto_sound in Hy.
  rewrite bind_get.
  rewrite (bind_silent _ _ _ _ (back_span_in_range s y D Bk Hy)).
  rewrite (bind_silent _ _ _ _ (row_in_range s y D F Hy)).
  rewrite E, cells_equal_refl. reflexivity.
Qed.

Lemma foreach_returns {X : Type} (xs : list X) (body : X -> unit -> M unit) s :
  (forall x, In x xs -> exists o, body x tt s = Ok (tt, s, o)) ->
  exists o, foreach xs body tt s = Ok (tt, s, o).
Proof.
  induction xs as [|x t IH]; intros Hb; simpl.
  - exists EmptyString. reflexivity.
  - destruct (Hb x (or_introl eq_refl)) as (o1 & H1).
    destruct IH as (o2 & H2); [intros k Hk; apply Hb; now right|].
    exists (o1 ++ o2)%string. rewrite (bind_Ok _ _ _ _ _ _ H1), H2. reflexivity.
Qed.

Lemma span_at_in_range (v : list cell) (sp : span) (x : N) (s : screen) :
  x < sp_len sp -> sp_off sp + sp_len sp <= size v ->
  exists c, span_at v sp x s = Ok (c, s, EmptyString).
Proof.
  intros Hx Hv. unfold span_at.
  replace (x <? sp_len sp) with true by (symmetry; now apply N.ltb_lt).
  destruct (nth_error v (N.to_nat (sp_off sp + x))) as [c|] eqn:E.
  - exists c. reflexivity.
  - apply nth_error_None in E. unfold size in Hv. lia.
Qed.

(** X23.  On a screen whose two grids have [m_width * m_height] cells
    (both dimensions positive) [flush] returns, whatever the cells hold,
    and leaves the object as it was. *)
Lemma flush_returns (s : screen) :
  dims_ok s -> front_ok s -> back_ok s ->
  exists o, flush s = Ok (tt, s, o).
Proof.
  intros D F Bk. unfold flush. rewrite bind_get. apply foreach_returns.
  intros y Hy. apply upto_sound in Hy.
  rewrite bind_get.
  rewrite (bind_silent _ _ _ _ (back_span_in_range s y D Bk Hy)).
  rewrite (bind_silent _ _ _ _ (row_in_range s y D F Hy)).
  destruct (cells_equal _ _); [exists EmptyString; reflexivity|].
  apply foreach_returns. intros x Hx. apply upto_sound in Hx.
  assert (Hr : y * m_width s + m_width s <= m_width s * m_height s)
    by (destruct D as (? & ? & ?); nia).
  destruct (span_at_in_range (m_front s) (mkspan (y * m_width s) (m_width s)) x s)
    as (f & Hf); [exact Hx | unfold front_ok in F; rewrite F; exact Hr |].
  destruct (span_at_in_range (m_back s) (mkspan (y * m_width s) (m_width s)) x s)
    as (k & Hk); [exact Hx | unfold back_ok in Bk; rewrite Bk; exact Hr |].
  assert (Hf' : front_at (mkspan (y * m_width s) (m_width s)) x s
                = Ok (f, s, EmptyString))
    by (unfold front_at; rewrite bind_get; exact Hf).
  assert (Hk' : back_at (mkspan (y * m_width s) (m_width s)) x s
                = Ok (k, s, EmptyString))
    by (unfold back_at; rewrite bind_get; exact Hk).
  rewrite (bind_silent _ _ _ _ Hf'), (bind_silent _ _ _ _ Hk').
  destruct (cell_eqb f k); [exists EmptyString; reflexivity|].
  destruct (negb (attribs_eqb (attr f) (attr k))); eexists; reflexivity.
Qed.

(* ------------------------------------------------------------------ *)
(** ** Operations that keep the size of the grids *)

Lemma clear_keeps_sizes (c : ascii) (s s' : screen) (u : unit) (o : string) :
  clear c s = Ok (u, s', o) ->
  size (m_front s') = size (m_front s) /\ m_back s' = m_back s.
Proof.
  intros H. inversion H; subst; clear H. unfold size. simpl.
  now rewrite repeat_length.
Qed.

Lemma setc_keeps_sizes (x y : N) (c : ascii) (s s' : screen) (u : unit) (o : string) :
  setc x y c s = Ok (u, s', o) ->
  size (m_front s') = size (m_front s) /\ m_back s' = m_back s.
Proof.
  unfold setc, front_assign. rewrite bind_get. intros H.
  apply bind_Ok_inv in H. destruct H as (? & s1 & ? & ? & H1 & H & _).
  apply readonly_assert in H1. subst s1.
  apply bind_Ok_inv in H. destruct H as (? & s1 & ? & ? & H1 & H & _).
  apply readonly_assert in H1. subst s1.
  rewrite bind_get in H.
  destruct (_ <? size (m_front s)); [|discriminate].
  inversion H; subst; clear H. unfold size. simpl.
  now rewrite length_list_set.
Qed.

Lemma putc_glyph_keeps_sizes (s s' : screen) (c : ascii) (u : unit) (o : string) :
  dims_ok s -> front_ok s ->
  m_cursorX s < m_width s -> m_cursorY s < m_height s -> c <> newline ->
  putc c s = Ok (u, s', o) ->
  front_ok s' /\ m_back s' = m_back s.
Proof.
  intros D F Hx Hy Hc H. rewrite (putc_glyph s c D F Hx Hy Hc) in H.
  inversion H; subst; clear H. unfold front_ok, size in *. simpl.
  now rewrite length_list_set.
Qed.

Lemma redraw_keeps_sizes (s s' : screen) (u : unit) (o : string) :
  redraw s = Ok (u, s', o) ->
  size (m_front s') = size (m_front s) /\ size (m_back s') = size (m_front s).
Proof. intros H. apply redraw_copies_front in H. subst s'. auto. Qed.

Lemma flush_keeps_sizes (s s' : screen) (u : unit) (o : string) :
  flush s = Ok (u, s', o) ->
  size (m_front s') = size (m_front s) /\ size (m_back s') = size (m_back s).
Proof. intros H. apply readonly_flush in H. subst s'. auto. Qed.

(* ------------------------------------------------------------------ *)
(** ** Colours and equality *)

Lemma lor_disjoint_add (a x k : N) :
  x < 2 ^ k -> N.lor (a * 2 ^ k) x = a * 2 ^ k + x.
Proof.
  intros Hx.
  assert (Z : N.land (a * 2 ^ k) x = 0).
  { apply N.bits_inj. intros m. rewrite N.land_spec, N.bits_0.
    destruct (N.lt_ge_cases m k) as [Hm|Hm].
    - rewrite N.mul_pow2_bits_low by exact Hm. reflexivity.
    - rewrite <- (N.mod_small x (2 ^ k)) by exact Hx.
      rewrite N.mod_pow2_bits_high by exact Hm. apply andb_false_r. }
  rewrite <- N.lxor_lor by exact Z. symmetry. now apply N.add_nocarry_lxor.
Qed.

Lemma single_sum (c : color) :
  valid_color c -> single c = 65536 * r c + 256 * g c + b c.
Proof.
  intros (Hr & Hg & Hb). unfold single.
  rewrite !N.shiftl_mul_pow2.
  rewrite (lor_disjoint_add (r c) (g c * 2 ^ 8) 16)
    by (change (2 ^ 16) with 65536; change (2 ^ 8) with 256; lia).
  replace (r c * 2 ^ 16 + g c * 2 ^ 8) with ((r c * 256 + g c) * 2 ^ 8)
    by (change (2 ^ 16) with 65536; change (2 ^ 8) with 256; lia).
  rewrite lor_disjoint_add by (change (2 ^ 8) with 256; lia).
  change (2 ^ 8) with 256. lia.
Qed.

(** X1.  [single] packs the channels of an 8-bit colour without overlap:
    the result is [r * 65536 + g * 256 + b], below [2 ^ 24], and two 8-bit
    colours with the same packed value are the same colour. *)
Theorem single_is_injective (c1 c2 : color) :
  valid_color c1 -> valid_color c2 ->
  single c1 = 65536 * r c1 + 256 * g c1 + b c1
  /\ single c1 < 2 ^ 24
  /\ (single c1 = single c2 -> c1 = c2).
Proof.
  intros V1 V2. pose proof (single_sum c1 V1) as E1.
  pose proof (single_sum c2 V2) as E2.
  destruct V1 as (? & ? & ?), V2 as (? & ? & ?).
  split; [exact E1|]. split.
  - rewrite E1. change (2 ^ 24) with 16777216. lia.
  - intros E. rewrite E1, E2 in E.
    destruct c1 as [r1 g1 b1], c2 as [r2 g2 b2]; cbn [r g b] in *.
    assert (r1 = r2) by lia. assert (g1 = g2) by lia. assert (b1 = b2) by lia.
    subst. reflexivity.
Qed.

Lemma single_is_injective_witness :
  valid_color (mkcolor 18 52 86) /\ valid_color (gray 7)
  /\ single (mkcolor 18 52 86) = 1193046
  /\ single (mkcolor 18 52 86) < 2 ^ 24
  /\ (single (mkcolor 18 52 86) = single (gray 7) -> mkcolor 18 52 86 = gray 7).
Proof.
  assert (V1 : valid_color (mkcolor 18 52 86)) by (vm_compute; auto).
  assert (V2 : valid_color (gray 7)) by (vm_compute; auto).
  split; [exact V1|]. split; [exact V2|].
  exact (single_is_injective _ _ V1 V2).
Defined.

Lemma color_eqb_eq (c1 c2 : color) : color_eqb c1 c2 = true <-> c1 = c2.
Proof.
  unfold color_eqb. rewrite !andb_true_iff, !N.eqb_eq.
  destruct c1, c2; simpl. split.
  - intros ((-> & ->) & ->). reflexivity.
  - intros E. inversion E. auto.
Qed.

Lemma attribs_eqb_eq (a1 a2 : attribs) : attribs_eqb a1 a2 = true <-> a1 = a2.
Proof.
  unfold attribs_eqb.
  rewrite !andb_true_iff, !color_eqb_eq, !Bool.eqb_true_iff.
  destruct a1, a2; simpl. split.
  - intros (((-> & ->) & ->) & ->). reflexivity.
  - intros E. inversion E. auto.
Qed.

Lemma cell_eqb_eq (c1 c2 : cell) : cell_eqb c1 c2 = true <-> c1 = c2.
Proof.
  unfold cell_eqb. rewrite andb_true_iff, Ascii.eqb_eq, attribs_eqb_eq.
  destruct c1, c2; simpl. split.
  - intros (-> & ->). reflexivity.
  - intros E. inversion E. auto.
Qed.

Lemma cell_eqb_sym (c1 c2 : cell) : cell_eqb c1 c2 = cell_eqb c2 c1.
Proof.
  destruct (cell_eqb c1 c2) eqn:E1, (cell_eqb c2 c1) eqn:E2; try reflexivity.
  - apply cell_eqb_eq in E1. subst. rewrite cell_eqb_refl in E2. discriminate.
  - apply cell_eqb_eq in E2. subst. rewrite cell_eqb_refl in E1. discriminate.
Qed.

Lemma cells_equal_eq (l1 l2 : list cell) : cells_equal l1 l2 = true <-> l1 = l2.
Proof.
  revert l2. induction l1 as [|c1 t1 IH]; intros [|c2 t2]; simpl;
    try (split; [discriminate | discriminate]); [tauto|].
  rewrite andb_true_iff, cell_eqb_eq, IH. split.
  - intros (-> & ->). reflexivity.
  - intros E. inversion E. auto.
Qed.

(** X2.  The defaulted comparisons are structural equality: two cells
    compare equal exactly when glyph, both colours, bold and underline
    agree, and [std::equal] on two ranges of cells holds exactly when the
    ranges have the same length and the same cells in the same order. *)
Theorem cell_comparison_is_structural (c1 c2 : cell) (l1 l2 : list cell) :
  (cell_eqb c1 c2 = true
   <-> chr c1 = chr c2 /\ bg (attr c1) = bg (attr c2)
       /\ fg (attr c1) = fg (attr c2) /\ bold (attr c1) = bold (attr c2)
       /\ underline (attr c1) = underline (attr c2))
  /\ (cells_equal l1 l2 = true <-> l1 = l2).
Proof.
  split; [|apply cells_equal_eq].
  rewrite cell_eqb_eq. destruct c1 as [h1 [b1 f1 o1 u1]], c2 as [h2 [b2 f2 o2 u2]].
  simpl. split.
  - intros E. inversion E. auto.
  - intros (-> & -> & -> & -> & ->). reflexivity.
Qed.

(* ------------------------------------------------------------------ *)
(** ** Rows and single cells *)

Lemma nth_error_list_set_eq (v : list cell) (n : nat) (c : cell) :
  (n < List.length v)%nat -> nth_error (list_set v n c) n = Some c.
Proof.
  revert n. induction v as [|h t IH]; intros [|n] Hn; simpl in *; try lia.
  - reflexivity.
  - apply IH. lia.
Qed.

Lemma nth_error_list_set_neq (v : list cell) (n m : nat) (c : cell) :
  n <> m -> nth_error (list_set v n c) m = nth_error v m.
Proof.
  revert n m. induction v as [|h t IH]; intros [|n] [|m] Hn; simpl;
    try reflexivity; try congruence.
  apply IH. congruence.
Qed.

Lemma front_at_in_range (s : screen) (y x : N) :
  dims_ok s -> front_ok s -> y < m_height s -> x < m_width s ->
  front_at (mkspan (y * m_width s) (m_width s)) x s
  = match nth_error (m_front s) (N.to_nat (x + y * m_width s)) with
    | Some c => Ok (c, s, EmptyString)
    | None => Undefined
    end.
Proof.
  intros D F Hy Hx. unfold front_at. rewrite bind_get. unfold span_at.
  cbn [sp_len sp_off].
  replace (x <? m_width s) with true by (symmetry; now apply N.ltb_lt).
  replace (y * m_width s + x) with (x + y * m_width s) by lia.
  destruct (nth_error _ _); reflexivity.
Qed.

(** X3.  On a screen whose front grid has [m_width * m_height] cells,
    [operator[]] with [i < m_height] returns the span of [m_width] cells at
    offset [i * m_width], and its element [x], for [x < m_width], is the
    cell at index [x + i * m_width] of the front grid, which exists. *)
Theorem row_is_the_slice_of_the_front_grid (s : screen) (i x : N) :
  dims_ok s -> front_ok s -> i < m_height s -> x < m_width s ->
  row i s = Ok (mkspan (i * m_width s) (m_width s), s, EmptyString)
  /\ List.length (slice (m_front s) (mkspan (i * m_width s) (m_width s)))
     = N.to_nat (m_width s)
  /\ exists c,
       nth_error (m_front s) (N.to_nat (x + i * m_width s)) = Some c
       /\ (sp <- row i ;; front_at sp x) s = Ok (c, s, EmptyString).
Proof.
  intros D F Hi Hx. pose proof (row_in_range s i D F Hi) as R.
  split; [exact R|]. split.
  - unfold slice. cbn [sp_len sp_off]. rewrite length_firstn, length_skipn.
    destruct D as (? & ? & ?). unfold front_ok, size in F. nia.
  - destruct (nth_error (m_front s) (N.to_nat (x + i * m_width s))) as [c|] eqn:E.
    + exists c. split; [reflexivity|].
      rewrite (bind_silent _ _ _ _ R), front_at_in_range, E by assumption.
      reflexivity.
    + apply nth_error_None in E. destruct D as (? & ? & ?).
      unfold front_ok, size in F. nia.
Qed.

Lemma row_is_the_slice_of_the_front_grid_witness :
  dims_ok column_abc /\ front_ok column_abc
  /\ 2 < m_height column_abc /\ 0 < m_width column_abc
  /\ exists c,
       chr c = "c"%char
       /\ (sp <- row 2 ;; front_at sp 0) column_abc
          = Ok (c, column_abc, EmptyString).
Proof.
  assert (D : dims_ok column_abc) by (vm_compute; auto).
  assert (F : front_ok column_abc) by (vm_compute; reflexivity).
  assert (Hi : 2 < m_height column_abc) by (vm_compute; reflexivity).
  assert (Hx : 0 < m_width column_abc) by (vm_compute; reflexivity).
  repeat (split; [first [exact D | exact F | exact Hi | exact Hx]|]).
  destruct (proj2 (proj2
    (row_is_the_slice_of_the_front_grid column_abc 2 0 D F Hi Hx)))
    as (c & E & R).
  exists c. split; [|exact R].
  vm_compute in E. inversion E. reflexivity.
Defined.

(** X4.  Past the last row [operator[]] never returns: on a screen whose
    front grid has [m_width * m_height] cells, an index from [m_height] up
    to [m_width * m_height] leaves the range of the vector, and an index
    from [m_width * m_height] on fails the assertion. *)
Theorem row_past_the_height_never_returns (s : screen) (i : N) :
  dims_ok s -> front_ok s -> m_height s <= i ->
  row i s = if i <? m_width s * m_height s then Undefined else AssertFail.
Proof.
  intros (Hw & Hh & Hwh) F Hi. unfold front_ok in F.
  unfold row. rewrite bind_get, wrap32_small by exact Hwh.
  destruct (i <? m_width s * m_height s) eqn:E.
  - rewrite bind_assert_true by reflexivity. apply N.ltb_lt in E.
    rewrite wrap64_small
      by (change (2 ^ 64) with 18446744073709551616;
          change (2 ^ 32) with 4294967296 in Hwh; nia).
    unfold span_of. rewrite F.
    replace (i * m_width s + m_width s <=? m_width s * m_height s) with false
      by (symmetry; apply N.leb_gt; nia).
    reflexivity.
  - reflexivity.
Qed.

Lemma row_past_the_height_never_returns_witness :
  dims_ok blank_2x2 /\ front_ok blank_2x2 /\ m_height blank_2x2 <= 3
  /\ row 3 blank_2x2 = Undefined.
Proof.
  assert (D : dims_ok blank_2x2) by (vm_compute; auto).
  assert (F : front_ok blank_2x2) by (vm_compute; reflexivity).
  assert (Hi : m_height blank_2x2 <= 3) by (vm_compute; discriminate).
  repeat (split; [first [exact D | exact F | exact Hi]|]).
  exact (row_past_the_height_never_returns blank_2x2 3 D F Hi).
Defined.

Lemma setc_in_range (s : screen) (x y : N) (c : ascii) :
  dims_ok s -> front_ok s -> x < m_width s -> y < m_height s ->
  setc x y c s
  = Ok (tt,
        with_front (list_set (m_front s) (N.to_nat (x + y * m_width s))
                             (mkcell c (m_cursorAttribs s))) s,
        EmptyString).
Proof.
  intros (Hw & Hh & Hwh) F Hx Hy. unfold front_ok in F.
  unfold setc. rewrite bind_get.
  rewrite bind_assert_true by (now apply N.ltb_lt).
  rewrite bind_assert_true by (now apply N.ltb_lt).
  rewrite (wrap32_small (y * m_width s)) by nia.
  rewrite wrap32_small by nia.
  unfold front_assign. rewrite bind_get.
  replace (x + y * m_width s <? size (m_front s)) with true
    by (symmetry; apply N.ltb_lt; rewrite F; nia).
  reflexivity.
Qed.

(** X5.  On a screen whose front grid has [m_width * m_height] cells,
    [setc(x, y, g)] with [x < m_width] and [y < m_height] returns and writes
    nothing to the terminal; reading row [y], column [x] afterwards gives
    the cell of glyph [g] and the cursor attributes; every other cell of the
    front grid, the back grid and the cursor are as before. *)
Theorem setc_then_read_back (s : screen) (x y : N) (g : ascii) :
  dims_ok s -> front_ok s -> x < m_width s -> y < m_height s ->
  exists s',
    setc x y g s = Ok (tt, s', EmptyString)
    /\ (sp <- row y ;; front_at sp x) s'
       = Ok (mkcell g (m_cursorAttribs s), s', EmptyString)
    /\ (forall k, k <> N.to_nat (x + y * m_width s) ->
                  nth_error (m_front s') k = nth_error (m_front s) k)
    /\ front_ok s' /\ m_back s' = m_back s
    /\ m_cursorX s' = m_cursorX s /\ m_cursorY s' = m_cursorY s
    /\ m_cursorAttribs s' = m_cursorAttribs s.
Proof.
  intros D F Hx Hy. eexists. split; [apply setc_in_range; assumption|].
  set (s' := with_front _ s).
  assert (Hin : (N.to_nat (x + y * m_width s) < List.length (m_front s))%nat).
  { destruct D as (? & ? & ?). unfold front_ok, size in F. nia. }
  assert (F' : front_ok s').
  { unfold front_ok, size, s'. cbn [with_front m_front m_width m_height].
    rewrite length_list_set. exact F. }
  assert (D' : dims_ok s') by exact D.
  split.
  - rewrite (bind_silent _ _ _ _ (row_in_range s' y D' F' Hy)).
    rewrite (front_at_in_range s' y x D' F' Hy Hx).
    change (m_width s') with (m_width s).
    change (m_front s')
      with (list_set (m_front s) (N.to_nat (x + y * m_width s))
                     (mkcell g (m_cursorAttribs s))).
    rewrite nth_error_list_set_eq by exact Hin.
    reflexivity.
  - split; [|repeat split; try exact F'].
    intros k Hk. unfold s'. cbn [with_front m_front].
    apply nth_error_list_set_neq. congruence.
Qed.

Lemma setc_then_read_back_witness :
  dims_ok blank_5x3_row1 /\ front_ok blank_5x3_row1
  /\ 2 < m_width blank_5x3_row1 /\ 1 < m_height blank_5x3_row1
  /\ exists s',
       setc 2 1 "X" blank_5x3_row1 = Ok (tt, s', EmptyString)
       /\ chars s' = [" "; " "; " "; " "; " "; " "; " "; "X"; " "; " ";
                      " "; " "; " "; " "; " "]%char.
Proof.
  assert (D : dims_ok blank_5x3_row1) by (vm_compute; auto).
  assert (F : front_ok blank_5x3_row1) by (vm_compute; reflexivity).
  assert (Hx : 2 < m_width blank_5x3_row1) by (vm_compute; reflexivity).
  assert (Hy : 1 < m_height blank_5x3_row1) by (vm_compute; reflexivity).
  repeat (split; [first [exact D | exact F | exact Hx | exact Hy]|]).
  destruct (setc_then_read_back blank_5x3_row1 2 1 "X" D F Hx Hy)
    as (s' & E & _).
  exists s'. split; [exact E|].
  vm_compute in E. inversion E. reflexivity.
Defined.

(** X6.  [setc(x, y, g)] with [x >= m_width] or [y >= m_height] fails an
    assertion, whatever the grids hold. *)
Theorem setc_out_of_range_aborts (s : screen) (x y : N) (g : ascii) :
  m_width s <= x \/ m_height s <= y -> setc x y g s = AssertFail.
Proof.
  intros H. unfold setc. rewrite bind_get.
  destruct (x <? m_width s) eqn:Ex.
  - rewrite bind_assert_true by reflexivity.
    apply N.ltb_lt in Ex.
    replace (y <? m_height s) with false
      by (symmetry; apply N.ltb_ge; lia).
    reflexivity.
  - reflexivity.
Qed.

Lemma setc_out_of_range_aborts_witness :
  (m_width blank_2x2 <= 2 \/ m_height blank_2x2 <= 0)
  /\ setc 2 0 "X" blank_2x2 = AssertFail.
Proof.
  assert (H : m_width blank_2x2 <= 2 \/ m_height blank_2x2 <= 0)
    by (left; vm_compute; discriminate).
  split; [exact H|].
  exact (setc_out_of_range_aborts blank_2x2 2 0 "X" H).
Defined.

(** X7.  [clear(c)] always returns and writes nothing to the terminal;
    afterwards the front grid has as many cells as before, each of them the
    cell of glyph [c] and the cursor attributes, and the back grid, the
    cursor and the dimensions are as before. *)
Theorem clear_fills_every_cell (s : screen) (c : ascii) :
  exists s',
    clear c s = Ok (tt, s', EmptyString)
    /\ List.length (m_front s') = List.length (m_front s)
    /\ (forall k, (k < List.length (m_front s))%nat ->
                  nth_error (m_front s') k = Some (mkcell c (m_cursorAttribs s)))
    /\ m_back s' = m_back s
    /\ m_width s' = m_width s /\ m_height s' = m_height s
    /\ m_cursorX s' = m_cursorX s /\ m_cursorY s' = m_cursorY s
    /\ m_cursorAttribs s' = m_cursorAttribs s.
Proof.
  eexists. split; [reflexivity|]. cbn [with_front m_front m_back m_width
    m_height m_cursorX m_cursorY m_cursorAttribs].
  split; [apply repeat_length|]. split; [|repeat split].
  intros k Hk. rewrite nth_error_repeat by exact Hk. reflexivity.
Qed.

(* ------------------------------------------------------------------ *)
(** ** The cursor state machine *)

Lemma putc_newline (s : screen) :
  dims_ok s -> m_cursorY s < m_height s ->
  putc newline s
  = Ok (tt,
        mkscreen (m_x s) (m_y s) (m_width s) (m_height s) (m_front s)
                 (m_back s) 0 (m_cursorY s + 1) (m_cursorAttribs s)
                 (m_fillChar s),
        EmptyString).
Proof.
  intros D Hy. pose proof (dims_ok_height32 s D) as H32.
  destruct D as (Hw & _ & _).
  unfold putc. rewrite bind_get.
  replace (m_cursorY s =? m_height s) with false
    by (symmetry; apply N.eqb_neq; lia).
  rewrite bind_ret. rewrite Ascii.eqb_refl.
  cbv [bind modify get]. cbn [with_cursorX with_cursorY m_cursorX m_cursorY
                              m_width m_x m_y m_height m_front m_back
                              m_cursorAttribs m_fillChar].
  replace (0 =? m_width s) with false by (symmetry; apply N.eqb_neq; lia).
  cbv [ret]. rewrite wrap32_small by lia. reflexivity.
Qed.

(** X8.  With the cursor on a row of the grid, [putc('\n')] returns,
    writes nothing to the terminal and no cell, and moves the cursor to
    column 0 of the next row; nothing else changes. *)
Theorem putc_newline_moves_to_next_row (s : screen) :
  dims_ok s -> m_cursorY s < m_height s ->
  exists s',
    putc newline s = Ok (tt, s', EmptyString)
    /\ m_cursorX s' = 0 /\ m_cursorY s' = m_cursorY s + 1
    /\ m_front s' = m_front s /\ m_back s' = m_back s
    /\ m_cursorAttribs s' = m_cursorAttribs s.
Proof.
  intros D Hy. eexists. split; [apply putc_newline; assumption|].
  repeat split.
Qed.

Lemma putc_newline_moves_to_next_row_witness :
  dims_ok blank_5x3_row1 /\ m_cursorY blank_5x3_row1 < m_height blank_5x3_row1
  /\ exists s',
       putc newline blank_5x3_row1 = Ok (tt, s', EmptyString)
       /\ m_cursorX s' = 0 /\ m_cursorY s' = 2.
Proof.
  assert (D : dims_ok blank_5x3_row1) by (vm_compute; auto).
  assert (Hy : m_cursorY blank_5x3_row1 < m_height blank_5x3_row1)
    by (vm_compute; reflexivity).
  split; [exact D|]. split; [exact Hy|].
  destruct (putc_newline_moves_to_next_row blank_5x3_row1 D Hy)
    as (s' & E & Hx & Hy' & _).
  exists s'. split; [exact E|]. split; [exact Hx|]. exact Hy'.
Defined.

(** X9.  One step of the cursor keeps the screen well formed: with the
    cursor on a cell of the grid, [putc] of any glyph returns, writes
    nothing to the terminal, keeps the width, the height, the number of
    cells of the front grid, the back grid and the cursor attributes, and
    leaves the cursor within its bounds ([m_cursorX < m_width],
    [m_cursorY <= m_height]); so the screen it leaves is again one whose
    front grid has [m_width * m_height] cells. *)
Theorem putc_keeps_the_screen_well_formed (s : screen) (c : ascii) :
  dims_ok s -> front_ok s ->
  m_cursorX s < m_width s -> m_cursorY s < m_height s ->
  exists s',
    putc c s = Ok (tt, s', EmptyString)
    /\ m_width s' = m_width s /\ m_height s' = m_height s
    /\ List.length (m_front s') = List.length (m_front s)
    /\ m_back s' = m_back s /\ m_cursorAttribs s' = m_cursorAttribs s
    /\ m_x s' = m_x s /\ m_y s' = m_y s /\ m_fillChar s' = m_fillChar s
    /\ dims_ok s' /\ front_ok s' /\ cursor_ok s'.
Proof.
  intros D F Hx Hy.
  destruct (Ascii.eqb c newline) eqn:E.
  - apply Ascii.eqb_eq in E. subst c. eexists.
    split; [apply putc_newline; assumption|].
    unfold front_ok, cursor_ok, dims_ok in *.
    cbn [m_width m_height m_front m_back m_cursorX m_cursorY m_cursorAttribs
         m_x m_y m_fillChar].
    repeat split; try tauto; lia.
  - apply Ascii.eqb_neq in E. eexists.
    split; [apply putc_glyph; assumption|].
    unfold front_ok, cursor_ok, dims_ok, size in *.
    cbn [m_width m_height m_front m_back m_cursorX m_cursorY m_cursorAttribs
         m_x m_y m_fillChar].
    rewrite length_list_set.
    destruct (m_cursorX s + 1 =? m_width s) eqn:Ew;
      [apply N.eqb_eq in Ew | apply N.eqb_neq in Ew];
      repeat split; try tauto; lia.
Qed.

Lemma putc_keeps_the_screen_well_formed_witness :
  dims_ok blank_5x3_row1 /\ front_ok blank_5x3_row1
  /\ m_cursorX blank_5x3_row1 < m_width blank_5x3_row1
  /\ m_cursorY blank_5x3_row1 < m_height blank_5x3_row1
  /\ exists s',
       putc "q" blank_5x3_row1 = Ok (tt, s', EmptyString)
       /\ m_width s' = 5 /\ m_height s' = 3
       /\ List.length (m_front s') = 15%nat
       /\ dims_ok s' /\ front_ok s' /\ cursor_ok s'.
Proof.
  assert (D : dims_ok blank_5x3_row1) by (vm_compute; auto).
  assert (F : front_ok blank_5x3_row1) by (vm_compute; reflexivity).
  assert (Hx : m_cursorX blank_5x3_row1 < m_width blank_5x3_row1)
    by (vm_compute; reflexivity).
  assert (Hy : m_cursorY blank_5x3_row1 < m_height blank_5x3_row1)
    by (vm_compute; reflexivity).
  repeat (split; [first [exact D | exact F | exact Hx | exact Hy]|]).
  destruct (putc_keeps_the_screen_well_formed blank_5x3_row1 "q" D F Hx Hy)
    as (s' & E & Ew & Eh & El & _ & _ & _ & _ & _ & D' & F' & C').
  exists s'. split; [exact E|]. split; [exact Ew|]. split; [exact Eh|].
  split; [exact El|]. split; [exact D'|]. split; [exact F'|exact C'].
Defined.

(** X10.  A run of glyphs that ends before the last column stays on its
    row: with the cursor at [(x, y)] on the grid, [puts] of a string without
    newline whose length [n] has [x + n < m_width] returns, writes nothing
    to the terminal, leaves the cursor at [(x + n, y)] and the glyphs, with
    the cursor attributes, in columns [x .. x + n - 1] of row [y]; the rest
    of the front grid is as before. *)
Theorem puts_short_run_stays_on_the_row (s : screen) (str : string) :
  dims_ok s -> front_ok s ->
  m_cursorY s < m_height s ->
  m_cursorX s + N.of_nat (String.length str) < m_width s ->
  (forall c, In c (list_ascii_of_string str) -> c <> newline) ->
  exists s',
    puts str s = Ok (tt, s', EmptyString)
    /\ m_cursorX s' = m_cursorX s + N.of_nat (String.length str)
    /\ m_cursorY s' = m_cursorY s
    /\ m_front s'
       = firstn (N.to_nat (m_cursorY s * m_width s + m_cursorX s)) (m_front s)
         ++ glyph_cells (m_cursorAttribs s) (list_ascii_of_string str)
         ++ skipn (N.to_nat (m_cursorY s * m_width s + m_cursorX s)
                   + String.length str) (m_front s)
    /\ m_back s' = m_back s.
Proof.
  intros D F Hy Hlen Hnl.
  rewrite <- length_list_ascii_of_string in *.
  eexists. split.
  { unfold puts. apply putc_run; try assumption; lia. }
  cbn [m_cursorX m_cursorY m_front m_back].
  replace (m_cursorX s + N.of_nat (List.length (list_ascii_of_string str))
           =? m_width s) with false
    by (symmetry; apply N.eqb_neq; lia).
  repeat split.
Qed.

Lemma puts_short_run_stays_on_the_row_witness :
  dims_ok blank_5x3_row1 /\ front_ok blank_5x3_row1
  /\ m_cursorY blank_5x3_row1 < m_height blank_5x3_row1
  /\ m_cursorX blank_5x3_row1 + N.of_nat (String.length "hey")
     < m_width blank_5x3_row1
  /\ exists s',
       puts "hey" blank_5x3_row1 = Ok (tt, s', EmptyString)
       /\ m_cursorX s' = 3 /\ m_cursorY s' = 1
       /\ chars s' = [" "; " "; " "; " "; " "; "h"; "e"; "y"; " "; " ";
                      " "; " "; " "; " "; " "]%char.
Proof.
  assert (D : dims_ok blank_5x3_row1) by (vm_compute; auto).
  assert (F : front_ok blank_5x3_row1) by (vm_compute; reflexivity).
  assert (Hy : m_cursorY blank_5x3_row1 < m_height blank_5x3_row1)
    by (vm_compute; reflexivity).
  assert (Hl : m_cursorX blank_5x3_row1 + N.of_nat (String.length "hey")
               < m_width blank_5x3_row1) by (vm_compute; reflexivity).
  assert (Hn : forall c, In c (list_ascii_of_string "hey") -> c <> newline).
  { intros c Hc. simpl in Hc.
    repeat (destruct Hc as [<-|Hc]; [discriminate|]). destruct Hc. }
  repeat (split; [first [exact D | exact F | exact Hy | exact Hl]|]).
  destruct (puts_short_run_stays_on_the_row blank_5x3_row1 "hey" D F Hy Hl Hn)
    as (s' & E & Hx' & Hy' & Hf & _).
  exists s'. split; [exact E|]. split; [exact Hx'|]. split; [exact Hy'|].
  unfold chars. rewrite Hf. reflexivity.
Defined.

Lemma scroll_on_grid (s : screen) :
  dims_ok s -> front_ok s ->
  scroll s
  = if 1 <? m_height s then
      Ok (tt,
          mkscreen (m_x s) (m_y s) (m_width s) (m_height s)
            (firstn (N.to_nat (m_width s * (m_height s - 2)))
                    (skipn (N.to_nat (m_width s)) (m_front s))
             ++ repeat (mkcell (m_fillChar s) (m_cursorAttribs s))
                       (N.to_nat (m_width s)))
            (m_back s) (m_cursorX s) (m_height s - 1)
            (m_cursorAttribs s) (m_fillChar s),
          EmptyString)
    else Undefined.
Proof.
  intros D F. pose proof (dims_ok_height32 s D) as H32.
  destruct D as (Hw & Hh & Hwh). unfold front_ok in F.
  rewrite scroll_unfold. cbv zeta. rewrite size_skipn, F.
  replace (m_width s <=? m_width s * m_height s) with true
    by (symmetry; apply N.leb_le; nia).
  destruct (1 <? m_height s) eqn:E.
  - apply N.ltb_lt in E.
    replace (m_width s <=? m_width s * m_height s - m_width s) with true
      by (symmetry; apply N.leb_le; nia).
    replace (m_width s * m_height s - m_width s - m_width s)
      with (m_width s * (m_height s - 2)) by (rewrite N.mul_sub_distr_l; lia).
    replace (sub32 (m_height s) 1) with (m_height s - 1); [reflexivity|].
    unfold sub32. rewrite (wrap32_small 1) by reflexivity.
    replace (m_height s + 2 ^ 32 - 1) with ((m_height s - 1) + 1 * 2 ^ 32) by lia.
    unfold wrap32. rewrite N.Div0.mod_add. symmetry. apply N.mod_small. lia.
  - apply N.ltb_ge in E.
    replace (m_width s <=? m_width s * m_height s - m_width s) with false
      by (symmetry; apply N.leb_gt; nia).
    reflexivity.
Qed.

(** X11.  On a screen whose front grid has [m_width * m_height] cells,
    [scroll] returns exactly when there are at least two rows; on a screen
    of one row it runs off the emptied vector.  When it returns it writes
    nothing to the terminal and keeps the back grid and the column of the
    cursor. *)
Theorem scroll_needs_two_rows (s : screen) :
  dims_ok s -> front_ok s ->
  (1 < m_height s ->
   exists s', scroll s = Ok (tt, s', EmptyString)
              /\ m_cursorY s' = m_height s - 1
              /\ m_cursorX s' = m_cursorX s /\ m_back s' = m_back s)
  /\ (m_height s = 1 -> scroll s = Undefined).
Proof.
  intros D F. rewrite (scroll_on_grid s D F). split.
  - intros H. apply N.ltb_lt in H. rewrite H. eexists. repeat split.
  - intros H. rewrite H. reflexivity.
Qed.

Lemma scroll_needs_two_rows_witness :
  dims_ok plotted_1x1 /\ front_ok plotted_1x1
  /\ m_height plotted_1x1 = 1 /\ scroll plotted_1x1 = Undefined.
Proof.
  assert (D : dims_ok plotted_1x1) by (vm_compute; auto).
  assert (F : front_ok plotted_1x1) by (vm_compute; reflexivity).
  assert (H : m_height plotted_1x1 = 1) by reflexivity.
  split; [exact D|]. split; [exact F|]. split; [exact H|].
  exact (proj2 (scroll_needs_two_rows plotted_1x1 D F) H).
Defined.

(** X12.  Writing a glyph once the cursor is below the last row
    ([m_cursorY = m_height], the state a full last row leaves) is undefined
    on every screen whose front grid has [m_width * m_height] cells: the
    [scroll] it starts with either runs off the vector (one row) or leaves
    the front grid one row short, and the glyph is then written to row
    [m_height - 1], past its end. *)
Theorem putc_below_the_last_row_is_undefined (s : screen) (c : ascii) :
  dims_ok s -> front_ok s ->
  m_cursorY s = m_height s -> c <> newline ->
  putc c s = Undefined.
Proof.
  intros D F Hy Hc. pose proof D as (Hw & Hh & Hwh).
  unfold putc. rewrite bind_get, Hy, N.eqb_refl.
  rewrite (proj2 (Ascii.eqb_neq c newline) Hc).
  unfold bind at 1. unfold bind at 1.
  rewrite (scroll_on_grid s D F).
  destruct (1 <? m_height s) eqn:E; [|reflexivity].
  apply N.ltb_lt in E.
  rewrite bind_get.
  cbn [m_cursorY m_cursorX m_cursorAttribs].
  unfold row at 1. unfold bind at 1. rewrite bind_get.
  cbn [m_width m_height m_front].
  rewrite bind_assert_true
    by (apply N.ltb_lt; rewrite wrap32_small by exact Hwh; nia).
  rewrite wrap64_small
    by (change (2 ^ 64) with 18446744073709551616;
        change (2 ^ 32) with 4294967296 in Hwh; nia).
  unfold span_of.
  replace (_ <=? _) with false; [reflexivity|].
  symmetry. apply N.leb_gt.
  rewrite size_app, size_repeat, size_firstn.
  - nia.
  - rewrite size_skipn. unfold front_ok in F. rewrite F.
    rewrite N.mul_sub_distr_l. lia.
Qed.

Lemma putc_below_the_last_row_is_undefined_witness :
  dims_ok column_abc /\ front_ok column_abc
  /\ m_cursorY column_abc = m_height column_abc
  /\ putc "d" column_abc = Undefined.
Proof.
  assert (D : dims_ok column_abc) by (vm_compute; auto).
  assert (F : front_ok column_abc) by (vm_compute; reflexivity).
  assert (Hy : m_cursorY column_abc = m_height column_abc) by reflexivity.
  assert (Hc : "d"%char <> newline) by discriminate.
  split; [exact D|]. split; [exact F|]. split; [exact Hy|].
  exact (putc_below_the_last_row_is_undefined column_abc "d" D F Hy Hc).
Defined.

(* ------------------------------------------------------------------ *)
(** ** Sequencing *)

Lemma bind_assoc {A B C : Type} (m : M A) (f : A -> M B) (h : B -> M C) s :
  bind (bind m f) h s = bind m (fun a => bind (f a) h) s.
Proof.
  unfold bind. destruct (m s) as [[[a s1] o1]| |]; try reflexivity.
  destruct (f a s1) as [[[b' s2] o2]| |]; try reflexivity.
  destruct (h b' s2) as [[[c s3] o3]| |]; try reflexivity.
  now rewrite append_assoc.
Qed.

Lemma bind_ext {A B : Type} (m : M A) (f1 f2 : A -> M B) s :
  (forall a s1, f1 a s1 = f2 a s1) -> bind m f1 s = bind m f2 s.
Proof.
  intros H. unfold bind. destruct (m s) as [[[a s1] o1]| |]; try reflexivity.
  now rewrite H.
Qed.

Lemma foreach_app {X A : Type} (xs ys : list X) (body : X -> A -> M A) :
  forall a s,
    foreach (xs ++ ys) body a s
    = bind (foreach xs body a) (foreach ys body) s.
Proof.
  induction xs as [|x xs IH]; intros a s; cbn [app foreach].
  - now rewrite bind_ret.
  - rewrite bind_assoc. apply bind_ext. intros a' s1. apply IH.
Qed.

Lemma list_ascii_of_string_app (a c : string) :
  list_ascii_of_string (a ++ c)
  = list_ascii_of_string a ++ list_ascii_of_string c.
Proof. induction a as [|x a IH]; simpl; [reflexivity | now rewrite IH]. Qed.

(** X13.  [puts] of a concatenation is [puts] of the first part followed
    by [puts] of the second, on every screen and also when one of them
    stops on an assertion or leaves the grid. *)
Theorem puts_of_a_concatenation (a c : string) (s : screen) :
  puts (a ++ c) s = (puts a ;; puts c) s.
Proof.
  unfold puts. rewrite list_ascii_of_string_app, foreach_app.
  apply bind_ext. intros [] s1. reflexivity.
Qed.

(* ------------------------------------------------------------------ *)
(** ** What redraw and flush do not read *)

Section Blind.

Variable g : screen -> screen.
Hypothesis g_width : forall s, m_width (g s) = m_width s.
Hypothesis g_height : forall s, m_height (g s) = m_height s.
Hypothesis g_front : forall s, m_front (g s) = m_front s.

Lemma blind_ret {A : Type} (a : A) : blind g (ret a).
Proof. intros s. reflexivity. Qed.

Lemma blind_cout (t : string) : blind g (cout t).
Proof. intros s. reflexivity. Qed.

Lemma blind_undefined {A : Type} : blind g (@undefined A).
Proof. intros s. reflexivity. Qed.

Lemma blind_assert (c : bool) : blind g (assert c).
Proof. intros s. unfold assert. destruct c; reflexivity. Qed.

Lemma blind_if {A : Type} (c : bool) (m1 m2 : M A) :
  blind g m1 -> blind g m2 -> blind g (if c then m1 else m2).
Proof. destruct c; auto. Qed.

Lemma blind_bind {A B : Type} (m : M A) (f : A -> M B) :
  blind g m -> (forall a, blind g (f a)) -> blind g (bind m f).
Proof.
  intros Hm Hf s. unfold bind. rewrite Hm.
  destruct (m s) as [[[a s1] o1]| |]; try reflexivity.
  cbn [lift_state]. rewrite Hf.
  destruct (f a s1) as [[[b' s2] o2]| |]; reflexivity.
Qed.

Lemma blind_get_bind {B : Type} (k : screen -> M B) :
  (forall s, k (g s) = k s) -> (forall s0, blind g (k s0)) ->
  blind g (bind get k).
Proof. intros Hk Hb s. rewrite !bind_get, Hk. apply Hb. Qed.

Lemma blind_foreach {X A : Type} (xs : list X) (body : X -> A -> M A) :
  (forall x a, blind g (body x a)) -> forall a, blind g (foreach xs body a).
Proof.
  intros Hb. induction xs as [|x t IH]; intros a; cbn [foreach].
  - apply blind_ret.
  - apply blind_bind; [apply Hb | exact IH].
Qed.

Lemma blind_span_of (v : list cell) (off len : N) : blind g (span_of v off len).
Proof.
  unfold span_of. apply blind_if; [apply blind_ret | apply blind_undefined].
Qed.

Lemma blind_span_at (v : list cell) (sp : span) (x : N) : blind g (span_at v sp x).
Proof.
  unfold span_at. apply blind_if; [|apply blind_undefined].
  destruct (nth_error v _); [apply blind_ret | apply blind_undefined].
Qed.

Lemma blind_row (i : N) : blind g (row i).
Proof.
  unfold row. apply blind_get_bind.
  - intros s. now rewrite g_width, g_height, g_front.
  - intros s0. apply blind_bind; [apply blind_assert|].
    intros _. apply blind_span_of.
Qed.

Lemma blind_front_at (sp : span) (x : N) : blind g (front_at sp x).
Proof.
  unfold front_at. apply blind_get_bind.
  - intros s. now rewrite g_front.
  - intros s0. apply blind_span_at.
Qed.

Lemma absorbs_bind {A B : Type} (m : M A) (f : A -> M B) :
  blind g m -> (forall a, absorbs g (f a)) -> absorbs g (bind m f).
Proof.
  intros Hm Hf s. unfold bind. rewrite Hm.
  destruct (m s) as [[[a s1] o1]| |]; try reflexivity.
  cbn [lift_state]. now rewrite Hf.
Qed.

Lemma absorbs_get_bind {B : Type} (k : screen -> M B) :
  (forall s, k (g s) = k s) -> (forall s0, absorbs g (k s0)) ->
  absorbs g (bind get k).
Proof. intros Hk Hb s. rewrite !bind_get, Hk. apply Hb. Qed.

(** The two nested loops of [redraw]. *)
Lemma blind_redraw_rows (h : N) (a : attribs) :
  blind g
    (foreach (upto h)
       (fun y cattr =>
          ANSI_MOVE 0 y ;;
          sp <- row y ;;
          foreach (upto (sp_len sp))
            (fun x cattr =>
               c <- front_at sp x ;;
               cattr' <- (if negb (attribs_eqb (attr c) cattr)
                          then
                            ANSI_COLOR_FG (fg (attr c)) ;;
                            ANSI_COLOR_BG (bg (attr c)) ;;
                            ret (attr c)
                          else ret cattr) ;;
               cout (put_char (chr c)) ;;
               ret cattr')
            cattr)
       a).
Proof.
  apply blind_foreach. intros y cattr.
  apply blind_bind; [apply blind_cout|]. intros _.
  apply blind_bind; [apply blind_row|]. intros sp.
  apply blind_foreach. intros x cattr0.
  apply blind_bind; [apply blind_front_at|]. intros c.
  apply blind_bind.
  - apply blind_if; [|apply blind_ret].
    apply blind_bind; [apply blind_cout|]. intros _.
    apply blind_bind; [apply blind_cout|]. intros _. apply blind_ret.
  - intros cattr'. apply blind_bind; [apply blind_cout|]. intros _.
    apply blind_ret.
Qed.

(** When [g] only changes what the last statement of [redraw]
    overwrites, [redraw] does not see it. *)
Lemma redraw_absorbs :
  (forall v s, with_back v (g s) = with_back v s) -> absorbs g redraw.
Proof.
  intros Hlast. unfold redraw.
  apply absorbs_bind; [apply blind_row|]. intros sp0.
  apply absorbs_bind; [apply blind_front_at|]. intros c0.
  apply absorbs_get_bind; [intros s; now rewrite g_height|]. intros s0.
  apply absorbs_bind; [apply blind_redraw_rows|]. intros _.
  intros s. rewrite !bind_get. unfold modify. now rewrite g_front, Hlast.
Qed.

(** When [g] commutes with that last statement, [redraw] is blind to
    it. *)
Lemma redraw_blind :
  (forall v s, with_back v (g s) = g (with_back v s)) -> blind g redraw.
Proof.
  intros Hlast. unfold redraw.
  apply blind_bind; [apply blind_row|]. intros sp0.
  apply blind_bind; [apply blind_front_at|]. intros c0.
  apply blind_get_bind; [intros s; now rewrite g_height|]. intros s0.
  apply blind_bind; [apply blind_redraw_rows|]. intros _.
  intros s. rewrite !bind_get. unfold modify. cbn [lift_state].
  now rewrite g_front, Hlast.
Qed.

Hypothesis g_back : forall s, m_back (g s) = m_back s.

Lemma blind_back_at (sp : span) (x : N) : blind g (back_at sp x).
Proof.
  unfold back_at. apply blind_get_bind.
  - intros s. now rewrite g_back.
  - intros s0. apply blind_span_at.
Qed.

Lemma flush_blind : blind g flush.
Proof.
  unfold flush. apply blind_get_bind; [intros s; now rewrite g_height|].
  intros s0. apply blind_foreach. intros y [].
  apply blind_get_bind.
  - intros s. now rewrite g_back, g_width, g_front.
  - intros s1.
    apply blind_bind; [apply blind_span_of|]. intros backspan.
    apply blind_bind; [apply blind_row|]. intros frontspan.
    apply blind_if; [apply blind_ret|].
    apply blind_foreach. intros x [].
    apply blind_bind; [apply blind_front_at|]. intros f.
    apply blind_bind; [apply blind_back_at|]. intros k.
    apply blind_if; [apply blind_ret|].
    apply blind_bind; [apply blind_cout|]. intros _.
    apply blind_bind; [|intros _; apply blind_cout].
    apply blind_if; [|apply blind_ret].
    apply blind_bind; [apply blind_cout|]. intros _. apply blind_cout.
Qed.

End Blind.

(** X14.  [redraw] does not read the back grid, and what it wrote once it
    writes again: a second [redraw] with nothing in between returns the
    same text and leaves the same object. *)
Theorem redraw_is_repeatable (s s1 : screen) (u : unit) (o : string) :
  redraw s = Ok (u, s1, o) ->
  redraw s1 = Ok (u, s1, o)
  /\ forall v, redraw (with_back v s) = Ok (u, s1, o).
Proof.
  intros H.
  assert (A : forall v, absorbs (with_back v) redraw).
  { intros v. apply redraw_absorbs; reflexivity. }
  pose proof (redraw_copies_front _ _ _ _ H) as E.
  split.
  - rewrite E at 1. rewrite A. exact H.
  - intros v. rewrite A. exact H.
Qed.

Lemma redraw_is_repeatable_witness :
  exists o,
    redraw plotted_1x1 = Ok (tt, with_back (m_front plotted_1x1) plotted_1x1, o)
    /\ redraw (with_back (m_front plotted_1x1) plotted_1x1)
       = Ok (tt, with_back (m_front plotted_1x1) plotted_1x1, o).
Proof.
  eexists.
  assert (H : redraw plotted_1x1
              = Ok (tt, with_back (m_front plotted_1x1) plotted_1x1,
                    String ESC "[1;1HX")) by (vm_compute; reflexivity).
  split; [exact H|].
  exact (proj1 (redraw_is_repeatable _ _ _ _ H)).
Defined.

(** X15.  The origin is never used: moved to another origin, [redraw] and
    [flush] return the same value and write the same text, and leave the
    object they would have left, at the new origin. *)
Theorem origin_is_never_used (X Y : N) (s : screen) :
  redraw (with_origin X Y s) = lift_state (with_origin X Y) (redraw s)
  /\ flush (with_origin X Y s) = lift_state (with_origin X Y) (flush s).
Proof.
  split.
  - apply redraw_blind; reflexivity.
  - apply flush_blind; reflexivity.
Qed.

(** X16.  After a [redraw] that returned on a screen whose front grid has
    [m_width * m_height] cells, [flush] returns, writes nothing and changes
    nothing. *)
Theorem flush_after_redraw_is_silent (s s1 : screen) (u : unit) (o : string) :
  dims_ok s -> front_ok s ->
  redraw s = Ok (u, s1, o) ->
  flush s1 = Ok (tt, s1, EmptyString).
Proof.
  intros D F H. apply redraw_copies_front in H. subst s1.
  apply flush_synced_silent; [exact D | exact F | reflexivity].
Qed.

Lemma flush_after_redraw_is_silent_witness :
  dims_ok plotted_1x1 /\ front_ok plotted_1x1
  /\ redraw plotted_1x1
     = Ok (tt, with_back (m_front plotted_1x1) plotted_1x1, String ESC "[1;1HX")
  /\ flush (with_back (m_front plotted_1x1) plotted_1x1)
     = Ok (tt, with_back (m_front plotted_1x1) plotted_1x1, EmptyString).
Proof.
  assert (D : dims_ok plotted_1x1) by (vm_compute; auto).
  assert (F : front_ok plotted_1x1) by (vm_compute; reflexivity).
  assert (H : redraw plotted_1x1
              = Ok (tt, with_back (m_front plotted_1x1) plotted_1x1,
                    String ESC "[1;1HX")) by (vm_compute; reflexivity).
  split; [exact D|]. split; [exact F|]. split; [exact H|].
  exact (flush_after_redraw_is_silent _ _ _ _ D F H).
Defined.

Lemma foreach_returns_acc {X A : Type} (xs : list X) (body : X -> A -> M A) s :
  (forall x a, In x xs -> exists a' o, body x a s = Ok (a', s, o)) ->
  forall a, exists a' o, foreach xs body a s = Ok (a', s, o).
Proof.
  induction xs as [|x t IH]; intros Hb a; cbn [foreach].
  - exists a, EmptyString. reflexivity.
  - destruct (Hb x a (or_introl eq_refl)) as (a1 & o1 & H1).
    destruct (IH (fun k a0 Hk => Hb k a0 (or_intror Hk)) a1) as (a2 & o2 & H2).
    exists a2, (o1 ++ o2)%string.
    rewrite (bind_Ok _ _ _ _ _ _ H1), H2. reflexivity.
Qed.

Lemma front_at_returns (s : screen) (y x : N) :
  dims_ok s -> front_ok s -> y < m_height s -> x < m_width s ->
  exists c, front_at (mkspan (y * m_width s) (m_width s)) x s
            = Ok (c, s, EmptyString).
Proof.
  intros D F Hy Hx. rewrite front_at_in_range by assumption.
  destruct (nth_error _ _) as [c|] eqn:E; [exists c; reflexivity|].
  apply nth_error_None in E. destruct D as (? & ? & ?).
  unfold front_ok, size in F. nia.
Qed.

(** X17.  On a screen whose front grid has [m_width * m_height] cells
    (both dimensions positive) [redraw] returns; the object it leaves is the
    one it received with the back grid replaced by the front grid. *)
Theorem redraw_returns (s : screen) :
  dims_ok s -> front_ok s ->
  exists o, redraw s = Ok (tt, with_back (m_front s) s, o).
Proof.
  intros D F. pose proof D as (Hw & Hh & Hwh).
  assert (L : forall a0, exists a o,
    foreach (upto (m_height s))
      (fun y cattr =>
         ANSI_MOVE 0 y ;;
         sp <- row y ;;
         foreach (upto (sp_len sp))
           (fun x cattr =>
              c <- front_at sp x ;;
              cattr' <- (if negb (attribs_eqb (attr c) cattr)
                         then
                           ANSI_COLOR_FG (fg (attr c)) ;;
                           ANSI_COLOR_BG (bg (attr c)) ;;
                           ret (attr c)
                         else ret cattr) ;;
              cout (put_char (chr c)) ;;
              ret cattr')
           cattr)
      a0 s
    = Ok (a, s, o)).
  { apply foreach_returns_acc. intros y cattr Hy. apply upto_sound in Hy.
    destruct (foreach_returns_acc (upto (m_width s))
      (fun x cattr =>
         c <- front_at (mkspan (y * m_width s) (m_width s)) x ;;
         cattr' <- (if negb (attribs_eqb (attr c) cattr)
                    then
                      ANSI_COLOR_FG (fg (attr c)) ;;
                      ANSI_COLOR_BG (bg (attr c)) ;;
                      ret (attr c)
                    else ret cattr) ;;
         cout (put_char (chr c)) ;;
         ret cattr') s) with (a := cattr) as (a' & o' & Hin).
    { intros x a0 Hx. apply upto_sound in Hx.
      destruct (front_at_returns s y x D F Hy Hx) as (c & Hc).
      rewrite (bind_silent _ _ _ _ Hc).
      destruct (negb (attribs_eqb (attr c) a0)); eexists; eexists; reflexivity. }
    exists a', (ANSI_MOVE_ss 0 y ++ o')%string.
    unfold ANSI_MOVE at 1.
    rewrite (bind_Ok _ _ _ _ _ _ (eq_refl : cout (ANSI_MOVE_ss 0 y) s = Ok (tt, s, _))).
    rewrite (bind_silent _ _ _ _ (row_in_range s y D F Hy)).
    cbn [sp_len]. rewrite Hin. reflexivity. }
  destruct (front_at_returns s 0 0 D F Hh Hw) as (c0 & Hc0).
  destruct (L (attr c0)) as (a & o & Hl).
  exists o. unfold redraw.
  rewrite (bind_silent _ _ _ _ (row_in_range s 0 D F Hh)).
  rewrite (bind_silent _ _ _ _ Hc0), bind_get.
  rewrite (bind_Ok _ _ _ _ _ _ Hl), bind_get.
  unfold modify. now rewrite append_empty_r.
Qed.

Lemma redraw_returns_witness :
  dims_ok column_abc /\ front_ok column_abc
  /\ exists o, redraw column_abc
               = Ok (tt, with_back (m_front column_abc) column_abc, o).
Proof.
  assert (D : dims_ok column_abc) by (vm_compute; auto).
  assert (F : front_ok column_abc) by (vm_compute; reflexivity).
  split; [exact D|]. split; [exact F|].
  exact (redraw_returns column_abc D F).
Defined.

(** X18.  The constructor, for dimensions whose product is an [unsigned]:
    with a zero dimension it fails the assertion of the first [redraw];
    otherwise it returns a screen at the given origin whose two grids are
    [W * H] copies of one cell, the fill glyph with the given colours, and
    whose cursor is at [(0, 0)] with the given colours as attributes.  The
    bold and underline flags of that cell and of the cursor attributes
    are not set by the constructor: they are whatever the two
    uninitialised pairs hold, for every value of them. *)
Theorem screen_new_builds_the_grid (jc ja : junk) (X Y W H : N) (C : ascii)
        (B F : color) :
  W * H < 2 ^ 32 ->
  (W * H = 0 -> screen_new jc ja X Y W H C B F = AssertFail)
  /\ (0 < W * H ->
      exists o s,
        screen_new jc ja X Y W H C B F = Ok (tt, s, o)
        /\ m_x s = X /\ m_y s = Y /\ m_width s = W /\ m_height s = H
        /\ m_front s
           = repeat (mkcell C (mkattribs B F (j_bold jc) (j_underline jc)))
                    (N.to_nat (W * H))
        /\ m_back s = m_front s
        /\ m_cursorAttribs s = mkattribs B F (j_bold ja) (j_underline ja)
        /\ m_fillChar s = C
        /\ m_cursorX s = 0 /\ m_cursorY s = 0).
Proof.
  intros Hwh. split.
  - intros Z. apply screen_new_empty_aborts.
    rewrite wrap32_small by exact Hwh. exact Z.
  - intros Hpos.
    assert (D : dims_ok (screen_init jc ja X Y W H C B F)).
    { unfold dims_ok. cbn [screen_init m_width m_height]. nia. }
    assert (Fr : front_ok (screen_init jc ja X Y W H C B F)).
    { unfold front_ok, size. cbn [screen_init m_width m_height m_front].
      rewrite repeat_length, wrap32_small by exact Hwh. lia. }
    destruct (redraw_returns _ D Fr) as (o & Ho).
    exists o, (screen_init jc ja X Y W H C B F). split; [exact Ho|].
    cbn [screen_init m_x m_y m_width m_height m_front m_back m_cursorAttribs
         m_fillChar m_cursorX m_cursorY].
    rewrite wrap32_small by exact Hwh.
    repeat split.
Qed.

Lemma screen_new_builds_the_grid_witness :
  2 * 2 < 2 ^ 32 /\ 0 < 2 * 2
  /\ exists o s,
       screen_new (mkjunk true false) (mkjunk false true) 0 0 2 2 " " black white
       = Ok (tt, s, o)
       /\ map (fun c => bold (attr c)) (m_front s) = [true; true; true; true]
       /\ underline (m_cursorAttribs s) = true.
Proof.
  assert (H1 : 2 * 2 < 2 ^ 32) by reflexivity.
  assert (H2 : 0 < 2 * 2) by reflexivity.
  split; [exact H1|]. split; [exact H2|].
  destruct (proj2 (screen_new_builds_the_grid (mkjunk true false)
                     (mkjunk false true) 0 0 2 2 " " black white H1) H2)
    as (o & s & E & _ & _ & _ & _ & Hf & _ & Ha & _).
  exists o, s. split; [exact E|]. rewrite Hf, Ha. split; reflexivity.
Defined.

(* ------------------------------------------------------------------ *)
(** ** What flush writes *)

Lemma append_empty_inv (o1 o2 : string) :
  (o1 ++ o2)%string = EmptyString -> o1 = EmptyString /\ o2 = EmptyString.
Proof. destruct o1; simpl; [auto | discriminate]. Qed.

Lemma foreach_silent_inv {X : Type} (xs : list X) (body : X -> unit -> M unit) s s' :
  (forall x, readonly (body x tt)) ->
  foreach xs body tt s = Ok (tt, s', EmptyString) ->
  forall x, In x xs -> body x tt s = Ok (tt, s, EmptyString).
Proof.
  intros Hro. induction xs as [|x t IH]; intros H k Hk; [destruct Hk|].
  cbn [foreach] in H. apply bind_Ok_inv in H.
  destruct H as ([] & s1 & o1 & o2 & H1 & H2 & Ho).
  symmetry in Ho. apply append_empty_inv in Ho. destruct Ho as (-> & ->).
  pose proof (Hro _ _ _ _ _ H1) as E. subst s1.
  destruct Hk as [<-|Hk]; [exact H1|]. now apply IH.
Qed.

Lemma nth_error_slice (v : list cell) (sp : span) (j : nat) :
  nth_error (slice v sp) j
  = if (j <? N.to_nat (sp_len sp))%nat
    then nth_error v (N.to_nat (sp_off sp) + j)
    else None.
Proof. unfold slice. now rewrite nth_error_firstn, nth_error_skipn. Qed.

(** The cell the row loop of [flush] compares at column [x] of row [y]. *)
Lemma flush_row_silent_inv (s : screen) (y : N) :
  dims_ok s -> front_ok s -> back_ok s -> y < m_height s ->
  (s1 <- get ;;
   backspan <- span_of (m_back s1) (wrap32 (y * m_width s1)) (m_width s1) ;;
   frontspan <- row y ;;
   if cells_equal (slice (m_back s1) backspan) (slice (m_front s1) frontspan)
   then ret tt
   else
     foreach (upto (m_width s1))
       (fun x _ =>
          f <- front_at frontspan x ;;
          k <- back_at backspan x ;;
          if cell_eqb f k then ret tt
          else
            ANSI_MOVE x y ;;
            (if negb (attribs_eqb (attr f) (attr k))
             then
               ANSI_COLOR_FG (fg (attr f)) ;;
               ANSI_COLOR_BG (bg (attr f))
             else ret tt) ;;
            cout (put_char (chr f)))
       tt) s = Ok (tt, s, EmptyString) ->
  forall x, x < m_width s ->
    nth_error (m_back s) (N.to_nat (x + y * m_width s))
    = nth_error (m_front s) (N.to_nat (x + y * m_width s)).
Proof.
  intros D F Bk Hy H x Hx.
  rewrite bind_get in H.
  rewrite (bind_silent _ _ _ _ (back_span_in_range s y D Bk Hy)) in H.
  rewrite (bind_silent _ _ _ _ (row_in_range s y D F Hy)) in H.
  destruct (cells_equal _ _) eqn:E.
  - apply cells_equal_eq in E.
    apply (f_equal (fun l => nth_error l (N.to_nat x))) in E.
    rewrite !nth_error_slice in E. cbn [sp_len sp_off] in E.
    replace (N.to_nat x <? N.to_nat (m_width s))%nat with true in E
      by (symmetry; apply Nat.ltb_lt; lia).
    replace (N.to_nat (x + y * m_width s))
      with (N.to_nat (y * m_width s) + N.to_nat x)%nat by lia.
    exact E.
  - assert (Hro : forall x0,
      readonly
        ((fun x1 (_ : unit) =>
            f <- front_at (mkspan (y * m_width s) (m_width s)) x1 ;;
            k <- back_at (mkspan (y * m_width s) (m_width s)) x1 ;;
            if cell_eqb f k then ret tt
            else
              ANSI_MOVE x1 y ;;
              (if negb (attribs_eqb (attr f) (attr k))
               then
                 ANSI_COLOR_FG (fg (attr f)) ;;
                 ANSI_COLOR_BG (bg (attr f))
               else ret tt) ;;
              cout (put_char (chr f))) x0 tt)).
    { intros x0. read_only. }
    pose proof (foreach_silent_inv _ _ _ _ Hro H x (upto_complete _ _ Hx)) as Hc.
    cbv beta in Hc.
    assert (Hr : y * m_width s + m_width s <= m_width s * m_height s)
      by (destruct D as (? & ? & ?); nia).
    pose proof (front_at_in_range s y x D F Hy Hx) as Hfa.
    destruct (nth_error (m_front s) (N.to_nat (x + y * m_width s))) as [f|] eqn:Ef.
    2:{ apply nth_error_None in Ef. unfold front_ok, size in F.
        destruct D as (? & ? & ?). nia. }
    rewrite (bind_silent _ _ _ _ Hfa) in Hc.
    assert (Hba : back_at (mkspan (y * m_width s) (m_width s)) x s
                  = match nth_error (m_back s) (N.to_nat (x + y * m_width s)) with
                    | Some c => Ok (c, s, EmptyString)
                    | None => Undefined
                    end).
    { unfold back_at. rewrite bind_get. unfold span_at. cbn [sp_len sp_off].
      replace (x <? m_width s) with true by (symmetry; now apply N.ltb_lt).
      replace (y * m_width s + x) with (x + y * m_width s) by lia.
      destruct (nth_error (m_back s) _); reflexivity. }
    destruct (nth_error (m_back s) (N.to_nat (x + y * m_width s))) as [k|] eqn:Ek.
    2:{ unfold bind in Hc. rewrite Hba in Hc. discriminate Hc. }
    rewrite (bind_silent _ _ _ _ Hba) in Hc.
    destruct (cell_eqb f k) eqn:Efk.
    + apply cell_eqb_eq in Efk. now subst.
    + exfalso. apply bind_Ok_inv in Hc.
      destruct Hc as (? & ? & ? & ? & H1 & _ & Ho).
      inversion H1; subst. discriminate Ho.
Qed.

Lemma grids_equal_by_cells (s : screen) :
  dims_ok s -> front_ok s -> back_ok s ->
  (forall y x, y < m_height s -> x < m_width s ->
     nth_error (m_back s) (N.to_nat (x + y * m_width s))
     = nth_error (m_front s) (N.to_nat (x + y * m_width s))) ->
  m_back s = m_front s.
Proof.
  intros (Hw & Hh & Hwh) F Bk Hc. unfold front_ok, back_ok, size in *.
  apply nth_error_ext. intros n.
  destruct (Nat.lt_ge_cases n (List.length (m_front s))) as [Hn|Hn].
  - pose proof (N.div_mod (N.of_nat n) (m_width s) ltac:(lia)) as Hdm.
    pose proof (N.mod_lt (N.of_nat n) (m_width s) ltac:(lia)) as Hm.
    assert (Hy : N.of_nat n / m_width s < m_height s).
    { apply N.Div0.div_lt_upper_bound. lia. }
    specialize (Hc _ _ Hy Hm).
    replace (N.to_nat (N.of_nat n mod m_width s
                       + N.of_nat n / m_width s * m_width s)) with n in Hc
      by lia.
    exact Hc.
  - rewrite (proj2 (nth_error_None (m_front s) n)) by exact Hn.
    apply nth_error_None. lia.
Qed.

(** X19.  On a screen whose two grids have [m_width * m_height] cells,
    [flush] writes nothing exactly when the back grid equals the front
    grid: a single cell that differs makes it write. *)
Theorem flush_is_silent_iff_grids_agree (s : screen) :
  dims_ok s -> front_ok s -> back_ok s ->
  (flush s = Ok (tt, s, EmptyString) <-> m_back s = m_front s).
Proof.
  intros D F Bk. split.
  - intros H. apply grids_equal_by_cells; try assumption.
    intros y x Hy Hx.
    unfold flush in H. rewrite bind_get in H.
    refine (flush_row_silent_inv s y D F Bk Hy _ x Hx).
    refine (foreach_silent_inv _ _ _ _ _ H y (upto_complete _ _ Hy)).
    intros y0. read_only.
  - intros E. now apply flush_synced_silent.
Qed.

Lemma flush_is_silent_iff_grids_agree_witness :
  dims_ok plotted_1x1 /\ front_ok plotted_1x1 /\ back_ok plotted_1x1
  /\ m_back plotted_1x1 <> m_front plotted_1x1
  /\ flush plotted_1x1 <> Ok (tt, plotted_1x1, EmptyString).
Proof.
  assert (D : dims_ok plotted_1x1) by (vm_compute; auto).
  assert (F : front_ok plotted_1x1) by (vm_compute; reflexivity).
  assert (Bk : back_ok plotted_1x1) by (vm_compute; reflexivity).
  assert (Hd : m_back plotted_1x1 <> m_front plotted_1x1)
    by (vm_compute; discriminate).
  repeat (split; [first [exact D | exact F | exact Bk | exact Hd]|]).
  intros H. apply Hd.
  exact (proj1 (flush_is_silent_iff_grids_agree plotted_1x1 D F Bk) H).
Defined.

Lemma NoDup_upto (n : N) : NoDup (upto n).
Proof.
  unfold upto. generalize (seq_NoDup (N.to_nat n) 0).
  generalize (seq 0 (N.to_nat n)). intros l Hl.
  induction Hl as [|x l Hx Hl IH]; simpl; constructor; [|exact IH].
  rewrite in_map_iff. intros (k & E & Hk). apply Nat2N.inj in E. now subst.
Qed.

Lemma foreach_one_speaks {X : Type} (xs : list X) (body : X -> unit -> M unit)
      (s : screen) (k : X) (o : string) :
  NoDup xs -> In k xs ->
  (forall x, In x xs -> x <> k -> body x tt s = Ok (tt, s, EmptyString)) ->
  body k tt s = Ok (tt, s, o) ->
  foreach xs body tt s = Ok (tt, s, o).
Proof.
  intros Hnd. induction Hnd as [|x t Hx Hnd IH]; intros Hk Hs Ho; [destruct Hk|].
  cbn [foreach]. destruct Hk as [->|Hk].
  - rewrite (bind_Ok _ _ _ _ _ _ Ho).
    rewrite foreach_silent, append_empty_r; [reflexivity|].
    intros x Hin. apply Hs; [now right|]. intros ->. contradiction.
  - rewrite (bind_silent _ _ _ _ (Hs x (or_introl eq_refl)
                                     (fun E => Hx (eq_ind_r (fun z => In z t) Hk E)))).
    apply IH; [exact Hk | | exact Ho].
    intros z Hz. apply Hs. now right.
Qed.

Lemma list_set_same (v : list cell) (n : nat) (c : cell) :
  nth_error v n = Some c -> list_set v n c = v.
Proof.
  revert n. induction v as [|h t IH]; intros [|n] H; simpl in *; try discriminate.
  - now inversion H.
  - now rewrite IH.
Qed.

Lemma slice_list_set_outside (v : list cell) (sp : span) (i : nat) (c : cell) :
  (i < N.to_nat (sp_off sp) \/ N.to_nat (sp_off sp) + N.to_nat (sp_len sp) <= i)%nat ->
  slice (list_set v i c) sp = slice v sp.
Proof.
  intros H. apply nth_error_ext. intros j. rewrite !nth_error_slice.
  destruct (j <? N.to_nat (sp_len sp))%nat eqn:E; [|reflexivity].
  apply Nat.ltb_lt in E. apply nth_error_list_set_neq. lia.
Qed.

Lemma back_at_in_range (s : screen) (y x : N) :
  x < m_width s ->
  back_at (mkspan (y * m_width s) (m_width s)) x s
  = match nth_error (m_back s) (N.to_nat (x + y * m_width s)) with
    | Some c => Ok (c, s, EmptyString)
    | None => Undefined
    end.
Proof.
  intros Hx. unfold back_at. rewrite bind_get. unfold span_at.
  cbn [sp_len sp_off].
  replace (x <? m_width s) with true by (symmetry; now apply N.ltb_lt).
  replace (y * m_width s + x) with (x + y * m_width s) by lia.
  destruct (nth_error (m_back s) _); reflexivity.
Qed.

Lemma other_row_is_elsewhere (w x y y' : N) :
  x < w -> y' <> y ->
  (N.to_nat (x + y * w) < N.to_nat (y' * w)
   \/ N.to_nat (y' * w) + N.to_nat w <= N.to_nat (x + y * w))%nat.
Proof.
  intros Hx Hy. destruct (N.lt_ge_cases y y') as [L|L].
  - left. assert ((y + 1) * w <= y' * w) by (apply N.mul_le_mono_r; lia). lia.
  - right. assert ((y' + 1) * w <= y * w) by (apply N.mul_le_mono_r; lia). lia.
Qed.

(** X20.  The incremental update of one cell.  On a screen whose back grid
    equals its front grid of [m_width * m_height] cells, [setc(x, y, g)]
    followed by [flush] writes nothing when the cell already had glyph [g]
    and the cursor attributes; otherwise it writes one cursor move to
    [(x, y)], the two colour sequences if the attributes changed, and the
    glyph, and nothing for any other cell. *)
Theorem flush_after_setc_writes_one_cell (s : screen) (x y : N) (g : ascii) (old : cell) :
  dims_ok s -> front_ok s -> m_back s = m_front s ->
  x < m_width s -> y < m_height s ->
  nth_error (m_front s) (N.to_nat (x + y * m_width s)) = Some old ->
  (setc x y g ;; flush) s
  = Ok (tt,
        with_front (list_set (m_front s) (N.to_nat (x + y * m_width s))
                             (mkcell g (m_cursorAttribs s))) s,
        if cell_eqb (mkcell g (m_cursorAttribs s)) old then EmptyString
        else cell_update_text x y (mkcell g (m_cursorAttribs s)) old).
Proof.
  intros D F E Hx Hy Hold.
  rewrite (bind_quiet _ _ _ _ _ (setc_in_range s x y g D F Hx Hy)).
  set (new := mkcell g (m_cursorAttribs s)).
  set (i := N.to_nat (x + y * m_width s)) in *.
  set (s1 := with_front (list_set (m_front s) i new) s).
  assert (Hin : (i < List.length (m_front s))%nat)
    by (apply nth_error_Some; rewrite Hold; discriminate).
  assert (D1 : dims_ok s1) by exact D.
  assert (F1 : front_ok s1).
  { unfold front_ok, size, s1. cbn [with_front m_front m_width m_height].
    rewrite length_list_set. exact F. }
  assert (B1 : back_ok s1).
  { unfold back_ok, s1. cbn [with_front m_back m_width m_height].
    rewrite E. exact F. }
  destruct (cell_eqb new old) eqn:Eno.
  - apply cell_eqb_eq in Eno. apply flush_synced_silent; [exact D1 | exact F1 |].
    unfold s1. cbn [with_front m_back m_front].
    rewrite Eno, list_set_same by exact Hold. exact E.
  - unfold flush. rewrite bind_get.
    apply foreach_one_speaks with (k := y);
      [apply NoDup_upto | now apply upto_complete | |].
    + intros y' Hy' Hne. apply upto_sound in Hy'. change (m_height s1) with (m_height s) in Hy'.
      rewrite bind_get.
      rewrite (bind_silent _ _ _ _ (back_span_in_range s1 y' D1 B1 Hy')).
      rewrite (bind_silent _ _ _ _ (row_in_range s1 y' D1 F1 Hy')).
      replace (cells_equal _ _) with true; [reflexivity|].
      symmetry. apply cells_equal_eq.
      unfold s1. cbn [with_front m_back m_front m_width].
      rewrite slice_list_set_outside, E; [reflexivity|].
      cbn [sp_off sp_len]. now apply other_row_is_elsewhere.
    + rewrite bind_get.
      rewrite (bind_silent _ _ _ _ (back_span_in_range s1 y D1 B1 Hy)).
      rewrite (bind_silent _ _ _ _ (row_in_range s1 y D1 F1 Hy)).
      change (m_width s1) with (m_width s).
      assert (Hnew : nth_error (m_front s1) i = Some new).
      { unfold s1. cbn [with_front m_front]. now apply nth_error_list_set_eq. }
      assert (Hbk : nth_error (m_back s1) i = Some old).
      { unfold s1. cbn [with_front m_back]. rewrite E. exact Hold. }
      replace (cells_equal _ _) with false.
      2:{ symmetry. apply not_true_is_false. intros C.
          apply cells_equal_eq in C.
          apply (f_equal (fun l => nth_error l (N.to_nat x))) in C.
          rewrite !nth_error_slice in C. cbn [sp_len sp_off] in C.
          replace (N.to_nat x <? N.to_nat (m_width s))%nat with true in C
            by (symmetry; apply Nat.ltb_lt; lia).
          replace (N.to_nat (y * m_width s) + N.to_nat x)%nat with i in C
            by (unfold i; lia).
          rewrite Hnew, Hbk in C. inversion C as [C'].
          rewrite <- C', cell_eqb_refl in Eno. discriminate. }
      apply foreach_one_speaks with (k := x);
        [apply NoDup_upto | now apply upto_complete | |].
      * intros x' Hx' Hne. apply upto_sound in Hx'.
        pose proof (front_at_in_range s1 y x' D1 F1 Hy Hx') as Hf.
        pose proof (back_at_in_range s1 y x' Hx') as Hb.
        change (m_width s1) with (m_width s) in Hf, Hb.
        assert (Hi' : i <> N.to_nat (x' + y * m_width s)) by (unfold i; lia).
        change (m_front s1) with (list_set (m_front s) i new) in Hf.
        change (m_back s1) with (m_back s) in Hb.
        rewrite nth_error_list_set_neq in Hf by exact Hi'. rewrite E in Hb.
        destruct (nth_error (m_front s) (N.to_nat (x' + y * m_width s)))
          as [c|] eqn:Ec.
        -- rewrite (bind_silent _ _ _ _ Hf), (bind_silent _ _ _ _ Hb).
           now rewrite cell_eqb_refl.
        -- apply nth_error_None in Ec. destruct D as (? & ? & ?).
           unfold front_ok, size in F. nia.
      * pose proof (front_at_in_range s1 y x D1 F1 Hy Hx) as Hf.
        pose proof (back_at_in_range s1 y x Hx) as Hb.
        change (m_width s1) with (m_width s) in Hf, Hb.
        fold i in Hf, Hb. rewrite Hnew in Hf. rewrite Hbk in Hb.
        rewrite (bind_silent _ _ _ _ Hf), (bind_silent _ _ _ _ Hb), Eno.
        unfold cell_update_text.
        destruct (negb (attribs_eqb (attr new) (attr old))); reflexivity.
Qed.

Lemma flush_after_setc_writes_one_cell_witness :
  dims_ok blank_2x2 /\ front_ok blank_2x2 /\ m_back blank_2x2 = m_front blank_2x2
  /\ 1 < m_width blank_2x2 /\ 1 < m_height blank_2x2
  /\ exists s', (setc 1 1 "X" ;; flush) blank_2x2
                = Ok (tt, s', String ESC "[2;2HX").
Proof.
  assert (D : dims_ok blank_2x2) by (vm_compute; auto).
  assert (F : front_ok blank_2x2) by (vm_compute; reflexivity).
  assert (E : m_back blank_2x2 = m_front blank_2x2) by reflexivity.
  assert (Hx : 1 < m_width blank_2x2) by (vm_compute; reflexivity).
  assert (Hy : 1 < m_height blank_2x2) by (vm_compute; reflexivity).
  repeat (split; [first [exact D | exact F | exact E | exact Hx | exact Hy]|]).
  eexists.
  exact (flush_after_setc_writes_one_cell blank_2x2 1 1 "X"
           (mkcell " " (attribs_bg_fg unset black white)) D F E Hx Hy eq_refl).
Defined.

(* ------------------------------------------------------------------ *)
(** ** What redraw writes on a screen of one colour *)

Lemma skipn_nth_error (v : list cell) (i : nat) (c : cell) :
  nth_error v i = Some c -> skipn i v = c :: skipn (S i) v.
Proof.
  revert i. induction v as [|h t IH]; intros [|i] H; simpl in *; try discriminate.
  - now inversion H.
  - now apply IH.
Qed.

Lemma redraw_columns_uniform (s : screen) (y : N) (a : attribs) :
  dims_ok s -> front_ok s -> y < m_height s ->
  (forall c, In c (m_front s) -> attr c = a) ->
  forall n k : nat,
    (k + n <= N.to_nat (m_width s))%nat ->
    foreach (map N.of_nat (seq k n))
      (fun x cattr =>
         c <- front_at (mkspan (y * m_width s) (m_width s)) x ;;
         cattr' <- (if negb (attribs_eqb (attr c) cattr)
                    then
                      ANSI_COLOR_FG (fg (attr c)) ;;
                      ANSI_COLOR_BG (bg (attr c)) ;;
                      ret (attr c)
                    else ret cattr) ;;
         cout (put_char (chr c)) ;;
         ret cattr')
      a s
    = Ok (a, s,
          glyphs_text (firstn n (skipn (N.to_nat (y * m_width s) + k) (m_front s)))).
Proof.
  intros D F Hy Hu. induction n as [|n IH]; intros k Hk.
  - reflexivity.
  - cbn [seq map foreach].
    assert (Hx : N.of_nat k < m_width s) by lia.
    pose proof (front_at_in_range s y (N.of_nat k) D F Hy Hx) as Hf.
    replace (N.to_nat (N.of_nat k + y * m_width s))
      with (N.to_nat (y * m_width s) + k)%nat in Hf by lia.
    destruct (nth_error (m_front s) (N.to_nat (y * m_width s) + k)) as [c|] eqn:Ec.
    2:{ apply nth_error_None in Ec. destruct D as (? & ? & ?).
        unfold front_ok, size in F. nia. }
    assert (Ha : attr c = a) by (apply Hu; eapply nth_error_In; exact Ec).
    rewrite (skipn_nth_error _ _ _ Ec). cbn [firstn].
    assert (Hb :
      (c0 <- front_at (mkspan (y * m_width s) (m_width s)) (N.of_nat k) ;;
       cattr' <- (if negb (attribs_eqb (attr c0) a)
                  then
                    ANSI_COLOR_FG (fg (attr c0)) ;;
                    ANSI_COLOR_BG (bg (attr c0)) ;;
                    ret (attr c0)
                  else ret a) ;;
       cout (put_char (chr c0)) ;;
       ret cattr') s
      = Ok (a, s, String (chr c) EmptyString)).
    { rewrite (bind_silent _ _ _ _ Hf), Ha, attribs_eqb_refl. reflexivity. }
    rewrite (bind_Ok _ _ _ _ _ _ Hb).
    rewrite (IH (S k)) by lia.
    replace (N.to_nat (y * m_width s) + S k)%nat
      with (S (N.to_nat (y * m_width s) + k)) by lia.
    reflexivity.
Qed.

Lemma redraw_rows_uniform (s : screen) (a : attribs) (ys : list N) :
  dims_ok s -> front_ok s ->
  (forall c, In c (m_front s) -> attr c = a) ->
  (forall y, In y ys -> y < m_height s) ->
  foreach ys
    (fun y cattr =>
       ANSI_MOVE 0 y ;;
       sp <- row y ;;
       foreach (upto (sp_len sp))
         (fun x cattr =>
            c <- front_at sp x ;;
            cattr' <- (if negb (attribs_eqb (attr c) cattr)
                       then
                         ANSI_COLOR_FG (fg (attr c)) ;;
                         ANSI_COLOR_BG (bg (attr c)) ;;
                         ret (attr c)
                       else ret cattr) ;;
            cout (put_char (chr c)) ;;
            ret cattr')
         cattr)
    a s
  = Ok (a, s, plain_rows_text (m_width s) (m_front s) ys).
Proof.
  intros D F Hu. induction ys as [|y t IH]; intros Hys; [reflexivity|].
  cbn [foreach plain_rows_text].
  assert (Hy : y < m_height s) by (apply Hys; now left).
  assert (Hb :
    (ANSI_MOVE 0 y ;;
     sp <- row y ;;
     foreach (upto (sp_len sp))
       (fun x cattr =>
          c <- front_at sp x ;;
          cattr' <- (if negb (attribs_eqb (attr c) cattr)
                     then
                       ANSI_COLOR_FG (fg (attr c)) ;;
                       ANSI_COLOR_BG (bg (attr c)) ;;
                       ret (attr c)
                     else ret cattr) ;;
          cout (put_char (chr c)) ;;
          ret cattr')
       a) s
    = Ok (a, s,
          (ANSI_MOVE_ss 0 y
           ++ glyphs_text (slice (m_front s) (mkspan (y * m_width s) (m_width s))))%string)).
  { rewrite (bind_Ok _ _ _ _ _ _
               (eq_refl : ANSI_MOVE 0 y s = Ok (tt, s, ANSI_MOVE_ss 0 y))).
    rewrite (bind_silent _ _ _ _ (row_in_range s y D F Hy)).
    cbn [sp_len]. unfold upto.
    rewrite (redraw_columns_uniform s y a D F Hy Hu (N.to_nat (m_width s)) 0)
      by lia.
    unfold slice. cbn [sp_len sp_off]. rewrite Nat.add_0_r. reflexivity. }
  rewrite (bind_Ok _ _ _ _ _ _ Hb).
  rewrite IH by (intros z Hz; apply Hys; now right).
  now rewrite append_assoc.
Qed.

(** X21.  On a screen whose front grid has [m_width * m_height] cells that
    all carry the same attributes, [redraw] writes no colour sequence at
    all, not even for the first cell: its text is, row after row, one
    cursor move to column 0 of the row followed by the glyphs of the row. *)
Theorem redraw_of_one_colour_writes_no_colour (s : screen) (a : attribs) :
  dims_ok s -> front_ok s ->
  (forall c, In c (m_front s) -> attr c = a) ->
  redraw s
  = Ok (tt, with_back (m_front s) s,
        plain_rows_text (m_width s) (m_front s) (upto (m_height s))).
Proof.
  intros D F Hu. pose proof D as (Hw & Hh & _).
  pose proof (front_at_in_range s 0 0 D F Hh Hw) as Hf.
  destruct (nth_error (m_front s) (N.to_nat (0 + 0 * m_width s))) as [c0|] eqn:Ec.
  2:{ apply nth_error_None in Ec. unfold front_ok, size in F. simpl in Ec. nia. }
  assert (Ha : attr c0 = a) by (apply Hu; eapply nth_error_In; exact Ec).
  unfold redraw.
  rewrite (bind_silent _ _ _ _ (row_in_range s 0 D F Hh)).
  rewrite (bind_silent _ _ _ _ Hf), bind_get, Ha.
  rewrite (bind_Ok _ _ _ _ _ _
             (redraw_rows_uniform s a (upto (m_height s)) D F Hu
                (fun y Hy => upto_sound _ _ Hy))).
  rewrite bind_get. unfold modify. now rewrite append_empty_r.
Qed.

Lemma redraw_of_one_colour_writes_no_colour_witness :
  dims_ok column_abc /\ front_ok column_abc
  /\ redraw column_abc
     = Ok (tt, with_back (m_front column_abc) column_abc,
           (String ESC "[1;1Ha" ++ String ESC "[2;1Hb"
            ++ String ESC "[3;1Hc")%string).
Proof.
  assert (D : dims_ok column_abc) by (vm_compute; auto).
  assert (F : front_ok column_abc) by (vm_compute; reflexivity).
  assert (U : forall c, In c (m_front column_abc)
                        -> attr c = attribs_bg_fg unset black white).
  { intros c Hc. simpl in Hc.
    repeat (destruct Hc as [<-|Hc]; [reflexivity|]). destruct Hc. }
  split; [exact D|]. split; [exact F|].
  exact (redraw_of_one_colour_writes_no_colour column_abc _ D F U).
Defined.

(* ------------------------------------------------------------------ *)
(** ** The cursor attributes *)

Lemma setcursorbg_run (r g b : N) (s : screen) :
  setcursorbg r g b s
  = Ok (tt,
        with_cursorAttribs
          (mkattribs (mkcolor r g b) (fg (m_cursorAttribs s))
                     (bold (m_cursorAttribs s)) (underline (m_cursorAttribs s))) s,
        EmptyString).
Proof. reflexivity. Qed.

Lemma setcursorfg_run (r g b : N) (s : screen) :
  setcursorfg r g b s
  = Ok (tt,
        with_cursorAttribs
          (mkattribs (bg (m_cursorAttribs s)) (mkcolor r g b)
                     (bold (m_cursorAttribs s)) (underline (m_cursorAttribs s))) s,
        EmptyString).
Proof. reflexivity. Qed.

Lemma setcursorbold_run (v : bool) (s : screen) :
  setcursorbold v s
  = Ok (tt,
        with_cursorAttribs
          (mkattribs (bg (m_cursorAttribs s)) (fg (m_cursorAttribs s))
                     v (underline (m_cursorAttribs s))) s,
        EmptyString).
Proof. reflexivity. Qed.

Lemma setcursorunderline_run (v : bool) (s : screen) :
  setcursorunderline v s
  = Ok (tt,
        with_cursorAttribs
          (mkattribs (bg (m_cursorAttribs s)) (fg (m_cursorAttribs s))
                     (bold (m_cursorAttribs s)) v) s,
        EmptyString).
Proof. reflexivity. Qed.

(** X22.  The four setters of the cursor attributes each change their own
    field only, whatever the order they are called in, and a cell plotted
    afterwards carries the four values that were set. *)
Theorem plotted_cell_carries_the_set_attributes
        (s : screen) (x y : N) (c : ascii)
        (r1 g1 b1 r2 g2 b2 : N) (v u : bool) :
  dims_ok s -> front_ok s -> x < m_width s -> y < m_height s ->
  (setcursorbg r1 g1 b1 ;; setcursorfg r2 g2 b2 ;;
   setcursorbold v ;; setcursorunderline u) s
  = Ok (tt,
        with_cursorAttribs
          (mkattribs (mkcolor r1 g1 b1) (mkcolor r2 g2 b2) v u) s,
        EmptyString)
  /\ (setcursorunderline u ;; setcursorbold v ;;
      setcursorfg r2 g2 b2 ;; setcursorbg r1 g1 b1) s
     = (setcursorbg r1 g1 b1 ;; setcursorfg r2 g2 b2 ;;
        setcursorbold v ;; setcursorunderline u) s
  /\ exists s',
       (setcursorbg r1 g1 b1 ;; setcursorfg r2 g2 b2 ;;
        setcursorbold v ;; setcursorunderline u ;;
        setc x y c ;; sp <- row y ;; front_at sp x) s
       = Ok (mkcell c (mkattribs (mkcolor r1 g1 b1) (mkcolor r2 g2 b2) v u),
             s', EmptyString).
Proof.
  intros D F Hx Hy. split; [reflexivity|]. split; [reflexivity|].
  set (a := mkattribs (mkcolor r1 g1 b1) (mkcolor r2 g2 b2) v u).
  set (s0 := with_cursorAttribs a s).
  assert (D0 : dims_ok s0) by exact D.
  assert (F0 : front_ok s0) by exact F.
  set (s1 := with_front (list_set (m_front s0) (N.to_nat (x + y * m_width s0))
                                  (mkcell c (m_cursorAttribs s0))) s0).
  assert (D1 : dims_ok s1) by exact D.
  assert (Hin : (N.to_nat (x + y * m_width s) < List.length (m_front s))%nat).
  { destruct D as (? & ? & ?). unfold front_ok, size in F. nia. }
  assert (F1 : front_ok s1).
  { unfold front_ok, size, s1. cbn [with_front m_front m_width m_height].
    rewrite length_list_set. exact F. }
  exists s1.
  rewrite (bind_quiet _ _ _ _ _ (setcursorbg_run r1 g1 b1 s)).
  rewrite (bind_quiet _ _ _ _ _ (setcursorfg_run r2 g2 b2 _)).
  rewrite (bind_quiet _ _ _ _ _ (setcursorbold_run v _)).
  rewrite (bind_quiet _ _ _ _ _ (setcursorunderline_run u _)).
  change (with_cursorAttribs _ (with_cursorAttribs _ (with_cursorAttribs _
            (with_cursorAttribs _ s)))) with s0.
  rewrite (bind_quiet _ _ _ _ _ (setc_in_range s0 x y c D0 F0 Hx Hy)).
  fold s1.
  rewrite (bind_silent _ _ _ _ (row_in_range s1 y D1 F1 Hy)).
  rewrite (front_at_in_range s1 y x D1 F1 Hy Hx).
  change (m_width s1) with (m_width s).
  change (m_front s1)
    with (list_set (m_front s) (N.to_nat (x + y * m_width s)) (mkcell c a)).
  rewrite nth_error_list_set_eq by exact Hin.
  reflexivity.
Qed.

Lemma plotted_cell_carries_the_set_attributes_witness :
  dims_ok blank_2x2 /\ front_ok blank_2x2
  /\ 1 < m_width blank_2x2 /\ 0 < m_height blank_2x2
  /\ exists s',
       (setcursorbg 1 2 3 ;; setcursorfg 4 5 6 ;;
        setcursorbold true ;; setcursorunderline false ;;
        setc 1 0 "X" ;; sp <- row 0 ;; front_at sp 1) blank_2x2
       = Ok (mkcell "X" (mkattribs (mkcolor 1 2 3) (mkcolor 4 5 6) true false),
             s', EmptyString).
Proof.
  assert (D : dims_ok blank_2x2) by (vm_compute; auto).
  assert (F : front_ok blank_2x2) by (vm_compute; reflexivity).
  assert (Hx : 1 < m_width blank_2x2) by (vm_compute; reflexivity).
  assert (Hy : 0 < m_height blank_2x2) by (vm_compute; reflexivity).
  repeat (split; [first [exact D | exact F | exact Hx | exact Hy]|]).
  exact (proj2 (proj2
    (plotted_cell_carries_the_set_attributes blank_2x2 1 0 "X"
       1 2 3 4 5 6 true false D F Hx Hy))).
Defined.

Lemma flush_returns_witness :
  dims_ok plotted_1x1 /\ front_ok plotted_1x1 /\ back_ok plotted_1x1
  /\ exists o, flush plotted_1x1 = Ok (tt, plotted_1x1, o).
Proof.
  assert (D : dims_ok plotted_1x1) by (vm_compute; auto).
  assert (F : front_ok plotted_1x1) by (vm_compute; reflexivity).
  assert (Bk : back_ok plotted_1x1) by (vm_compute; reflexivity).
  split; [exact D|]. split; [exact F|]. split; [exact Bk|].
  exact (flush_returns plotted_1x1 D F Bk).
Defined.

(* ------------------------------------------------------------------ *)
(** ** A full row on a screen that has scrolled *)

Example filled_2x2_built :
  on_new (screen_new_plain unset unset 0 0 2 2) (puts "abcd")
  = Ok (tt, filled_2x2, EmptyString).
Proof. vm_compute. reflexivity. Qed.

Lemma setcursorxy_run (x y : N) (s : screen) :
  setcursorxy x y s = Ok (tt, with_cursorY y (with_cursorX x s), EmptyString).
Proof. reflexivity. Qed.

(** C8.  The line-wrap law fails on a screen that has scrolled.  After a
    [scroll] that returned on a screen whose front grid had
    [m_width * m_height] cells, the last row [y = m_height - 1] is still a
    row below the height, but with the cursor set to [(0, y)] a [puts] of
    [m_width] glyphs none of which is the newline does not leave the cursor
    at [(0, y + 1)]: the first glyph is written past the end of the front
    grid, which [scroll] left one row short. *)
Theorem puts_full_row_after_scroll_is_undefined
        (s s1 : screen) (u : unit) (o : string) (str : string) :
  dims_ok s -> front_ok s ->
  scroll s = Ok (u, s1, o) ->
  N.of_nat (String.length str) = m_width s1 ->
  (forall c, In c (list_ascii_of_string str) -> c <> newline) ->
  m_height s1 - 1 < m_height s1
  /\ (setcursorxy 0 (m_height s1 - 1) ;; puts str) s1 = Undefined.
Proof.
  intros D F H Hlen Hnl. pose proof D as (Hw & Hh & Hwh).
  rewrite (scroll_on_grid s D F) in H.
  destruct (1 <? m_height s) eqn:E; [|discriminate].
  apply N.ltb_lt in E. inversion H; subst s1; clear H.
  cbn [m_height m_width] in *. split; [lia|].
  rewrite (bind_quiet _ _ _ _ _ (setcursorxy_run _ _ _)).
  destruct str as [|c str]; [simpl in Hlen; lia|].
  assert (Hc : c <> newline) by (apply Hnl; left; reflexivity).
  unfold puts. cbn [list_ascii_of_string foreach].
  unfold bind at 1.
  replace (putc c _) with (@Undefined (unit * screen * string)); [reflexivity|].
  symmetry. unfold putc. rewrite bind_get.
  cbn [with_cursorY with_cursorX m_cursorY m_cursorX m_height m_width
       m_front m_cursorAttribs].
  replace (m_height s - 1 =? m_height s) with false
    by (symmetry; apply N.eqb_neq; lia).
  rewrite bind_ret.
  rewrite (proj2 (Ascii.eqb_neq c newline) Hc).
  set (S2 := with_cursorY _ _).
  assert (R : row (m_cursorY S2) S2 = Undefined).
  { unfold row. rewrite bind_get.
    cbn [S2 with_cursorY with_cursorX m_cursorY m_width m_height m_front].
    rewrite bind_assert_true
      by (apply N.ltb_lt; rewrite wrap32_small by exact Hwh; nia).
    rewrite wrap64_small
      by (change (2 ^ 64) with 18446744073709551616;
          change (2 ^ 32) with 4294967296 in Hwh; nia).
    unfold span_of.
    replace (_ <=? _) with false; [reflexivity|].
    symmetry. apply N.leb_gt.
    rewrite size_app, size_repeat, size_firstn.
    - nia.
    - rewrite size_skipn. unfold front_ok in F. rewrite F.
      rewrite N.mul_sub_distr_l. lia. }
  unfold bind at 1. rewrite bind_get. unfold bind at 1. rewrite R. reflexivity.
Qed.

Lemma puts_full_row_after_scroll_is_undefined_witness :
  dims_ok filled_2x2 /\ front_ok filled_2x2
  /\ exists s1,
       scroll filled_2x2 = Ok (tt, s1, EmptyString)
       /\ N.of_nat (String.length "ef") = m_width s1
       /\ m_height s1 - 1 < m_height s1
       /\ (setcursorxy 0 (m_height s1 - 1) ;; puts "ef") s1 = Undefined.
Proof.
  assert (D : dims_ok filled_2x2) by (vm_compute; auto).
  assert (F : front_ok filled_2x2) by (vm_compute; reflexivity).
  assert (Hn : forall c, In c (list_ascii_of_string "ef") -> c <> newline).
  { intros c Hc. simpl in Hc.
    repeat (destruct Hc as [<-|Hc]; [discriminate|]). destruct Hc. }
  split; [exact D|]. split; [exact F|].
  eexists. split; [vm_compute; reflexivity|]. split; [reflexivity|].
  exact (puts_full_row_after_scroll_is_undefined filled_2x2 _ tt EmptyString
           "ef"%string D F eq_refl eq_refl Hn).
Defined.

(** The same from the constructor on, through the public calls only: the
    newline scrolls, the cursor is put back on row 1 of the two, and the
    two glyphs of a full row are written. *)
Example full_row_on_scrolled_2x2 :
  on_new (screen_new_plain unset unset 0 0 2 2)
         (puts "abcd" ;; putc newline ;; setcursorxy 0 1 ;;
          s <- get ;; ret (m_width s, m_height s, m_cursorX s, m_cursorY s,
                           List.length (m_front s)))
  = Ok ((2, 2, 0, 1, 2%nat),
        screen_after
          (on_new (screen_new_plain unset unset 0 0 2 2)
                  (puts "abcd" ;; putc newline ;; setcursorxy 0 1)),
        EmptyString)
  /\ on_new (screen_new_plain unset unset 0 0 2 2)
            (puts "abcd" ;; putc newline ;; setcursorxy 0 1 ;; puts "ef")
     = Undefined.
Proof. split; vm_compute; reflexivity. Qed.
